(** * Read-through cache of the product catalogue

    A shallow embedding of [services/RedisService.ts] (the cache client) and
    [resolvers/ProductResolver.ts] (the read-through / write-invalidate
    accessor), with the properties of the design note stated over it.

    Asynchronous calls are sequenced the way [await] sequences them: every
    operation is a function from the world before the call to an outcome and
    the world after it.  A rejected promise is the outcome [Err].

    The resolver is written against the three methods of its cache client
    and is embedded over that interface; [RedisService] is one client, the
    in-memory [MemoryCache] another.  The record store answers reads through
    an oracle and runs the statements of the mutation on tables with a
    transaction; a fault plan says which statements throw. *)

From stdpp Require Import base strings gmap list pretty.

Local Open Scope string_scope.
Local Open Scope list_scope.
Local Open Scope Z_scope.
Set Warnings "-register-all".

(** ** JavaScript values *)

(** The values that flow between the store, the resolver and the cache.
    Numbers are carried as integers: the code only moves them around, turns
    them into key text and tests them for zero.  A [Date] is carried by the
    two renderings of its time value, [toISOString()] and [toString()]; a
    [Date] whose time value is NaN, an Invalid Date, has neither. *)
Inductive value : Type :=
| VUndefined
| VNull
| VBool (b : bool)
| VNum (n : Z)
| VStr (s : string)
| VDate (iso text : string)
| VInvalidDate
| VArr (items : list value)
| VObj (fields : list (string * value)).

(** A row of a query result, and any plain object: its properties in order. *)
Abbreviation row := (list (string * value)).

(** [if (v)]: the falsy values are undefined, null, false, 0 and the empty
    string; every object, array and date is truthy. *)
Definition truthy (v : value) : bool :=
  match v with
  | VUndefined | VNull => false
  | VBool b => b
  | VNum n => negb (n =? 0)
  | VStr s => negb (String.eqb s "")
  | VDate _ _ | VInvalidDate | VArr _ | VObj _ => true
  end.

(** [o.k] on an object: the property, or undefined. *)
Fixpoint getProp (o : row) (k : string) : value :=
  match o with
  | [] => VUndefined
  | (k', v) :: o' => if String.eqb k' k then v else getProp o' k
  end.

(** Text of a value inside a template literal. *)
Fixpoint toString (v : value) : string :=
  match v with
  | VUndefined => "undefined"
  | VNull => "null"
  | VBool true => "true"
  | VBool false => "false"
  | VNum n => pretty n
  | VStr s => s
  | VDate _ text => text
  | VInvalidDate => "Invalid Date"
  | VArr items =>
      (fix join (l : list value) : string :=
         match l with
         | [] => ""
         | x :: l' =>
             let elt := match x with
                        | VUndefined | VNull => ""
                        | _ => toString x
                        end in
             match l' with
             | [] => elt
             | _ :: _ => elt +:+ "," +:+ join l'
             end
         end) items
  | VObj _ => "[object Object]"
  end.

(** Key equality of a [Map] (SameValueZero): primitives compare by content;
    two objects are the same key only when they are the same reference, which
    no two values of this model are. *)
Definition sameValueZero (a b : value) : bool :=
  match a, b with
  | VUndefined, VUndefined => true
  | VNull, VNull => true
  | VBool x, VBool y => Bool.eqb x y
  | VNum x, VNum y => x =? y
  | VStr x, VStr y => String.eqb x y
  | _, _ => false
  end.

(** [Map.prototype.get] and [Map.prototype.set], insertion order kept. *)
Fixpoint Map_get {V : Type} (m : list (value * V)) (k : value) : option V :=
  match m with
  | [] => None
  | (k', v) :: m' => if sameValueZero k' k then Some v else Map_get m' k
  end.

Fixpoint Map_set {V : Type} (m : list (value * V)) (k : value) (v : V)
  : list (value * V) :=
  match m with
  | [] => [(k, v)]
  | (k', v') :: m' =>
      if sameValueZero k' k then (k', v) :: m' else (k', v') :: Map_set m' k v
  end.

(** ** Exceptions and outcomes *)

Record exn : Type := Exn { exn_name : string; exn_message : string }.

Inductive res (A : Type) : Type :=
| Ok (a : A)
| Err (e : exn).
Arguments Ok {A} a.
Arguments Err {A} e.

Definition TypeError (msg : string) : exn := Exn "TypeError" msg.
Definition Error (msg : string) : exn := Exn "Error" msg.

(** ** The record store *)

(** The SQL statements the resolver sends, one constructor per query text. *)
Inductive sql : Type :=
| SelectProductsPage
    (* SELECT p.*, c.name AS category_name, COALESCE(AVG(r.rating), 0) ...
       WHERE p.is_active = true ... ORDER BY p.created_at DESC
       LIMIT $1 OFFSET $2 *)
| SelectProductById
    (* the same SELECT ... WHERE p.id = $1 AND p.is_active = true *)
| SelectCategoryById
    (* SELECT * FROM categories WHERE id = $1 *)
| SelectReviews
    (* SELECT * FROM reviews WHERE product_id = $1 *)
| SelectVariants
    (* SELECT * FROM product_variants WHERE product_id = $1 *)
| Begin
| InsertProduct
    (* INSERT INTO products (name, description, price, sku, brand, stock,
       category_id) VALUES ($1, ..., $7) RETURNING * *)
| InsertVariant
    (* INSERT INTO product_variants (product_id, color, size, price, stock)
       VALUES ($1, ..., $5) *)
| Commit
| Rollback.

Global Instance sql_eq_dec : EqDecision sql.
Proof. solve_decision. Defined.

(** The store as the resolver sees it.  [select] answers the read queries
    (their execution is the store's business); the two tables hold the
    committed rows the mutation writes, [txn] the rows of the transaction
    open on the pooled connection.  [faults] is the fault plan of that
    connection: its n-th entry, when it is [Some e], makes the n-th statement
    sent on the connection throw [e] and have no effect. *)
Record Pg : Type := mkPg {
  select : sql -> list value -> res (list row);
  connect_error : option exn;
  products_tbl : list row;
  variants_tbl : list row;
  txn : option (list row * list row);
  next_id : Z;
  faults : list (option exn)
}.

Definition pg_with_tables (d : Pg) (ps vs : list row) : Pg :=
  mkPg (select d) (connect_error d) ps vs (txn d) (next_id d) (faults d).
Definition pg_with_txn (d : Pg) (t : option (list row * list row)) : Pg :=
  mkPg (select d) (connect_error d) (products_tbl d) (variants_tbl d) t
       (next_id d) (faults d).
Definition pg_with_next_id (d : Pg) (n : Z) : Pg :=
  mkPg (select d) (connect_error d) (products_tbl d) (variants_tbl d) (txn d)
       n (faults d).
Definition pg_with_faults (d : Pg) (f : list (option exn)) : Pg :=
  mkPg (select d) (connect_error d) (products_tbl d) (variants_tbl d) (txn d)
       (next_id d) f.

(** A parameter as the driver sends it: undefined goes out as NULL. *)
Definition pg_param (v : value) : value :=
  match v with VUndefined => VNull | _ => v end.

Definition nth_param (params : list value) (i : nat) : value :=
  pg_param (nth i params VUndefined).

(** The row a product INSERT stores and returns, with its store-assigned id. *)
Definition product_row (id : Z) (params : list value) : row :=
  [ ("id", VStr (pretty id));
    ("name", nth_param params 0);
    ("description", nth_param params 1);
    ("price", nth_param params 2);
    ("sku", nth_param params 3);
    ("brand", nth_param params 4);
    ("stock", nth_param params 5);
    ("category_id", nth_param params 6);
    ("is_active", VBool true) ].

Definition variant_row (id : Z) (params : list value) : row :=
  [ ("id", VStr (pretty id));
    ("product_id", nth_param params 0);
    ("color", nth_param params 1);
    ("size", nth_param params 2);
    ("price", nth_param params 3);
    ("stock", nth_param params 4) ].

(** What a statement does once the fault plan lets it through.  Inside a
    transaction inserted rows are pending until COMMIT; outside one every
    statement commits on its own. *)
Definition pg_run (q : sql) (params : list value) (d : Pg)
  : res (list row) * Pg :=
  match q with
  | Begin =>
      (Ok [], match txn d with
              | None => pg_with_txn d (Some ([], []))
              | Some _ => d
              end)
  | Commit =>
      (Ok [], match txn d with
              | None => d
              | Some (ps, vs) =>
                  pg_with_txn
                    (pg_with_tables d (products_tbl d ++ ps)
                                      (variants_tbl d ++ vs)) None
              end)
  | Rollback => (Ok [], pg_with_txn d None)
  | InsertProduct =>
      let r := product_row (next_id d) params in
      let d := pg_with_next_id d (next_id d + 1) in
      (Ok [r], match txn d with
               | None =>
                   pg_with_tables d (products_tbl d ++ [r]) (variants_tbl d)
               | Some (ps, vs) => pg_with_txn d (Some (ps ++ [r], vs))
               end)
  | InsertVariant =>
      let r := variant_row (next_id d) params in
      let d := pg_with_next_id d (next_id d + 1) in
      (Ok [], match txn d with
              | None =>
                  pg_with_tables d (products_tbl d) (variants_tbl d ++ [r])
              | Some (ps, vs) => pg_with_txn d (Some (ps, vs ++ [r]))
              end)
  | _ => (select d q params, d)
  end.

(** [client.query(text, params)] on the pooled connection. *)
Definition pg_client_query (q : sql) (params : list value) (d : Pg)
  : res (list row) * Pg :=
  match faults d with
  | Some e :: rest => (Err e, pg_with_faults d rest)
  | None :: rest => pg_run q params (pg_with_faults d rest)
  | [] => pg_run q params d
  end.

(** ** Worlds and the call monad *)

(** What the resolver asked of its collaborators, in call order: the record
    jest's mocks keep of their calls. *)
Inductive event : Type :=
| EvCacheGet (key : string)
| EvCacheSet (key : string) (v : value) (ttl : option Z)
| EvCacheDel (keys : list string)
| EvPoolQuery (q : sql) (params : list value)
| EvConnect
| EvClientQuery (q : sql) (params : list value)
| EvRelease
| EvLog (msg : string).

(** The cache client as the resolver uses it: the three methods of
    [redisService], each taking the client's state to an outcome and the
    state after the call. *)
Class CacheClient (C : Type) : Type := {
  cache_get : string -> C -> res value * C;
  cache_set : string -> value -> option Z -> C -> res () * C;
  cache_del : list string -> C -> res () * C
}.

(** A resolver instance in its surroundings: the cache client, the store,
    the instance's three side tables and the calls made so far. *)
Record World (C : Type) : Type := mkWorld {
  cache : C;
  db : Pg;
  productData : list (value * row);
  reviewData : list (value * list row);
  variantData : list (value * list row);
  trace : list event
}.
Arguments mkWorld {C}.
Arguments cache {C}.
Arguments db {C}.
Arguments productData {C}.
Arguments reviewData {C}.
Arguments variantData {C}.
Arguments trace {C}.

Definition M (C A : Type) : Type := World C -> res A * World C.

Definition ret {C A} (a : A) : M C A := fun w => (Ok a, w).
Definition throw {C A} (e : exn) : M C A := fun w => (Err e, w).
Definition bind {C A B} (m : M C A) (k : A -> M C B) : M C B :=
  fun w => match m w with
           | (Ok a, w') => k a w'
           | (Err e, w') => (Err e, w')
           end.

(** [try { body } catch (error) { handler }] *)
Definition try_catch {C A} (body : M C A) (handler : exn -> M C A) : M C A :=
  fun w => match body w with
           | (Ok a, w') => (Ok a, w')
           | (Err e, w') => handler e w'
           end.

(** [try { body } finally { fin }] *)
Definition try_finally {C A} (body : M C A) (fin : M C ()) : M C A :=
  fun w => let (r, w') := body w in
           match fin w' with
           | (Ok _, w'') => (r, w'')
           | (Err e, w'') => (Err e, w'')
           end.

Declare Scope call_scope.
Delimit Scope call_scope with call.
Notation "x <- c1 ;; c2" := (bind c1 (fun x => c2))
  (at level 100, c1 at next level, right associativity) : call_scope.
Notation "c1 ;;; c2" := (bind c1 (fun _ => c2))
  (at level 100, right associativity) : call_scope.
Local Open Scope call_scope.

(** [for (const x of xs) { await f(x) }] *)
Fixpoint for_of {C A} (xs : list A) (f : A -> M C ()) : M C () :=
  match xs with
  | [] => ret ()
  | x :: xs' => f x ;;; for_of xs' f
  end.

(** [xs.map(f)] where [f] may throw. *)
Fixpoint map_throwing {A B} (f : A -> res B) (xs : list A) : res (list B) :=
  match xs with
  | [] => Ok []
  | x :: xs' =>
      match f x with
      | Err e => Err e
      | Ok y => match map_throwing f xs' with
                | Err e => Err e
                | Ok ys => Ok (y :: ys)
                end
      end
  end.

Definition lift_res {C A} (r : res A) : M C A := fun w => (r, w).

Definition emit {C} (ev : event) (w : World C) : World C :=
  mkWorld (cache w) (db w) (productData w) (reviewData w) (variantData w)
          (trace w ++ [ev]).
Definition with_cache {C} (w : World C) (c : C) : World C :=
  mkWorld c (db w) (productData w) (reviewData w) (variantData w) (trace w).
Definition with_db {C} (w : World C) (d : Pg) : World C :=
  mkWorld (cache w) d (productData w) (reviewData w) (variantData w) (trace w).
Definition with_productData {C} (w : World C) (m : list (value * row))
  : World C :=
  mkWorld (cache w) (db w) m (reviewData w) (variantData w) (trace w).
Definition with_reviewData {C} (w : World C) (m : list (value * list row))
  : World C :=
  mkWorld (cache w) (db w) (productData w) m (variantData w) (trace w).
Definition with_variantData {C} (w : World C) (m : list (value * list row))
  : World C :=
  mkWorld (cache w) (db w) (productData w) (reviewData w) m (trace w).

(** The events a run appended to the trace. *)
Definition events_since {C} (w w' : World C) : list event :=
  drop (length (trace w)) (trace w').

(** ** Mutation input *)

Module ProductVariantInput.
Record t : Type := mk {
  color : string;
  size : string;
  price : Z;
  stock : Z
  }.
End ProductVariantInput.

Module CreateProductInput.
Record t : Type := mk {
  name : string;
  description : string;
  price : Z;
  sku : option string;
  brand : option string;
  stock : Z;
  categoryId : string;
  variants : option (list ProductVariantInput.t)
  }.
End CreateProductInput.

(** An optional string field read from an input object. *)
Definition optional_field (o : option string) : value :=
  match o with Some s => VStr s | None => VUndefined end.

(** ** Row mappers of the resolver *)

Definition mapProductDBToProduct (productDB : row) : row :=
  [ ("id", getProp productDB "id");
    ("name", getProp productDB "name");
    ("description", getProp productDB "description");
    ("price", getProp productDB "price");
    ("sku", getProp productDB "sku");
    ("brand", getProp productDB "brand");
    ("stock", getProp productDB "stock") ].

(** The argument is [result.rows[0]], undefined when the result is empty;
    reading a property of undefined throws. *)
Definition mapCategoryDBToCategory (categoryDB : option row) : res row :=
  match categoryDB with
  | None =>
      Err (TypeError "Cannot read properties of undefined (reading 'id')")
  | Some c =>
      Ok [ ("id", getProp c "id");
           ("name", getProp c "name");
           ("description", getProp c "description") ]
  end.

(** [d.toISOString()]: a RangeError on an Invalid Date, a TypeError on what
    is no [Date]. *)
Definition toISOString (d : value) : res value :=
  match d with
  | VDate iso _ => Ok (VStr iso)
  | VInvalidDate => Err (Exn "RangeError" "Invalid time value")
  | VUndefined =>
      Err (TypeError
             "Cannot read properties of undefined (reading 'toISOString')")
  | VNull =>
      Err (TypeError "Cannot read properties of null (reading 'toISOString')")
  | _ => Err (TypeError "reviewDB.created_at.toISOString is not a function")
  end.

Definition mapReviewDBToReview (reviewDB : row) : res row :=
  match toISOString (getProp reviewDB "created_at") with
  | Err e => Err e
  | Ok createdAt =>
      Ok [ ("id", getProp reviewDB "id");
           ("userId", getProp reviewDB "user_id");
           ("rating", getProp reviewDB "rating");
           ("comment", getProp reviewDB "comment");
           ("createdAt", createdAt) ]
  end.

Definition mapVariantDBToVariant (variantDB : row) : row :=
  [ ("id", getProp variantDB "id");
    ("color", getProp variantDB "color");
    ("size", getProp variantDB "size");
    ("price", getProp variantDB "price");
    ("stock", getProp variantDB "stock") ].

(** ** The resolver *)

Section ProductResolver.
Context {C : Type} `{CacheClient C}.

(** [productSchema.validate(input)]: the verdict of the yup schema, taken as
    given; [Some e] is the validation error it throws. *)
Variable productSchema_validate : CreateProductInput.t -> option exn.

(** *** Calls to the collaborators *)

Definition redisService_get (key : string) : M C value :=
  fun w => let w := emit (EvCacheGet key) w in
           let (r, c) := cache_get key (cache w) in (r, with_cache w c).

Definition redisService_set (key : string) (v : value) (ttl : option Z)
  : M C () :=
  fun w => let w := emit (EvCacheSet key v ttl) w in
           let (r, c) := cache_set key v ttl (cache w) in (r, with_cache w c).

Definition redisService_del (keys : list string) : M C () :=
  fun w => let w := emit (EvCacheDel keys) w in
           let (r, c) := cache_del keys (cache w) in (r, with_cache w c).

Definition pool_query (q : sql) (params : list value) : M C (list row) :=
  fun w => let w := emit (EvPoolQuery q params) w in
           (select (db w) q params, w).

Definition pool_connect : M C () :=
  fun w => let w := emit EvConnect w in
           match connect_error (db w) with
           | Some e => (Err e, w)
           | None => (Ok (), w)
           end.

Definition client_query (q : sql) (params : list value) : M C (list row) :=
  fun w => let w := emit (EvClientQuery q params) w in
           let (r, d) := pg_client_query q params (db w) in (r, with_db w d).

Definition client_release : M C () :=
  fun w => (Ok (), emit EvRelease w).

Definition logger_error (msg : string) : M C () :=
  fun w => (Ok (), emit (EvLog msg) w).

(** *** Cache keys, as the template literals build them *)

Definition products_cacheKey (limit offset : Z) : string :=
  "products:" +:+ toString (VNum limit) +:+ ":" +:+ toString (VNum offset).
Definition product_cacheKey (id : string) : string := "product:" +:+ id.
Definition category_cacheKey (productRawData : row) : string :=
  "category:" +:+ toString (getProp productRawData "category_id").
Definition reviews_cacheKey (product : row) : string :=
  "reviews:" +:+ toString (getProp product "id").
Definition variants_cacheKey (product : row) : string :=
  "variants:" +:+ toString (getProp product "id").

(** *** Queries *)

(** [result.rows.forEach(row => this.productData.set(row.id, row))] *)
Definition remember_rows (rows : list row) : M C () :=
  fun w => (Ok (),
            with_productData w
              (fold_left (fun m r => Map_set m (getProp r "id") r) rows
                         (productData w))).

Definition products (limit offset : Z) : M C value :=
  try_catch
    (let cacheKey := products_cacheKey limit offset in
     cachedProducts <- redisService_get cacheKey ;;
     if truthy cachedProducts then ret cachedProducts
     else
       rows <- pool_query SelectProductsPage [VNum limit; VNum offset] ;;
       let products := VArr (map VObj rows) in
       redisService_set cacheKey products (Some 300) ;;;
       remember_rows rows ;;;
       ret (VArr (map (fun r => VObj (mapProductDBToProduct r)) rows)))
    (fun error =>
       logger_error "Fehler beim Abrufen der Produkte" ;;; throw error).

Definition product (id : string) : M C value :=
  try_catch
    (let cacheKey := product_cacheKey id in
     cachedProduct <- redisService_get cacheKey ;;
     if truthy cachedProduct then ret cachedProduct
     else
       rows <- pool_query SelectProductById [VStr id] ;;
       match head rows with
       | None => ret VNull
       | Some product =>
           redisService_set cacheKey (VObj product) (Some 3600) ;;;
           ret (VObj product)
       end)
    (fun error =>
       logger_error "Fehler beim Abrufen des Produkts" ;;; throw error).

(** *** The mutation *)

Definition product_params (input : CreateProductInput.t) : list value :=
  [ VStr (CreateProductInput.name input);
    VStr (CreateProductInput.description input);
    VNum (CreateProductInput.price input);
    optional_field (CreateProductInput.sku input);
    optional_field (CreateProductInput.brand input);
    VNum (CreateProductInput.stock input);
    VStr (CreateProductInput.categoryId input) ].

Definition variant_params (product_id : value)
  (variant : ProductVariantInput.t) : list value :=
  [ product_id;
    VStr (ProductVariantInput.color variant);
    VStr (ProductVariantInput.size variant);
    VNum (ProductVariantInput.price variant);
    VNum (ProductVariantInput.stock variant) ].

(** [product.id] where [product] is [productResult.rows[0]] *)
Definition inserted_id (product : option row) : res value :=
  match product with
  | Some p => Ok (getProp p "id")
  | None =>
      Err (TypeError "Cannot read properties of undefined (reading 'id')")
  end.

(** The [for ... of] over [input.variants], entered when
    [input.variants?.length] is truthy. *)
Definition insert_variants (product : option row)
  (variants : option (list ProductVariantInput.t)) : M C () :=
  match variants with
  | None | Some [] => ret ()
  | Some vs =>
      for_of vs (fun variant =>
        product_id <- lift_res (inserted_id product) ;;
        client_query InsertVariant (variant_params product_id variant) ;;;
        ret ())
  end.

(** The inner [try] block: everything between [BEGIN] and [return]. *)
Definition createProduct_transaction (input : CreateProductInput.t)
  : M C value :=
  client_query Begin [] ;;;
  productResult <- client_query InsertProduct (product_params input) ;;
  let product := head productResult in
  insert_variants product (CreateProductInput.variants input) ;;;
  client_query Commit [] ;;;
  redisService_del ["products:*"] ;;;
  ret (match product with Some p => VObj p | None => VUndefined end).

Definition createProduct (input : CreateProductInput.t) : M C value :=
  try_catch
    (match productSchema_validate input with
     | Some e => throw e
     | None =>
         pool_connect ;;;
         try_finally
           (try_catch
              (createProduct_transaction input)
              (fun error => client_query Rollback [] ;;; throw error))
           client_release
     end)
    (fun error =>
       logger_error "Fehler beim Erstellen des Produkts" ;;; throw error).

(** *** Field resolvers *)

Definition category (product : row) : M C value :=
  fun w =>
    match Map_get (productData w) (getProp product "id") with
    | None => throw (Error "Product data not found") w
    | Some productRawData =>
        let cacheKey := category_cacheKey productRawData in
        try_catch
          (cachedCategory <- redisService_get cacheKey ;;
           if truthy cachedCategory then ret cachedCategory
           else
             rows <- pool_query SelectCategoryById
                       [getProp productRawData "category_id"] ;;
             category <- lift_res (mapCategoryDBToCategory (head rows)) ;;
             redisService_set cacheKey (VObj category) (Some 3600) ;;;
             ret (VObj category))
          (fun error =>
             logger_error "Fehler beim Abrufen der Kategorie" ;;;
             throw error) w
    end.

Definition remember_reviews (k : value) (rows : list row) : M C () :=
  fun w => (Ok (), with_reviewData w (Map_set (reviewData w) k rows)).

Definition remember_variants (k : value) (rows : list row) : M C () :=
  fun w => (Ok (), with_variantData w (Map_set (variantData w) k rows)).

Definition reviews (product : row) : M C value :=
  let cacheKey := reviews_cacheKey product in
  try_catch
    (cachedReviews <- redisService_get cacheKey ;;
     if truthy cachedReviews then ret cachedReviews
     else
       rows <- pool_query SelectReviews [getProp product "id"] ;;
       remember_reviews (getProp product "id") rows ;;;
       mapped <- lift_res (map_throwing mapReviewDBToReview rows) ;;
       let reviews := VArr (map VObj mapped) in
       redisService_set cacheKey reviews (Some 1800) ;;;
       ret reviews)
    (fun error =>
       logger_error "Fehler beim Abrufen der Bewertungen" ;;; throw error).

Definition variants (product : row) : M C value :=
  let cacheKey := variants_cacheKey product in
  try_catch
    (cachedVariants <- redisService_get cacheKey ;;
     if truthy cachedVariants then ret cachedVariants
     else
       rows <- pool_query SelectVariants [getProp product "id"] ;;
       remember_variants (getProp product "id") rows ;;;
       let variants :=
         VArr (map (fun r => VObj (mapVariantDBToVariant r)) rows) in
       redisService_set cacheKey variants (Some 1800) ;;;
       ret variants)
    (fun error =>
       logger_error "Fehler beim Abrufen der Varianten" ;;; throw error).

End ProductResolver.

(** ** The cache client: RedisService *)

Module RedisService.

(** The ioredis client together with the server behind it: the live
    entries (text and the EX seconds they were stored with; expiry is the
    server's business) and whether the server answers. *)
Record Redis : Type := mkRedis {
  kv : gmap string (string * option Z);
  reachable : bool
  }.

Inductive CircuitState : Type := Closed | Open | HalfOpen.

Record t : Type := mk {
  client : Redis;
  isConnected : bool;
  circuit : CircuitState;
  log : list string
  }.

Definition with_client (s : t) (c : Redis) : t :=
  mk c (isConnected s) (circuit s) (log s).
Definition with_isConnected (s : t) (b : bool) : t :=
  mk (client s) b (circuit s) (log s).
Definition with_circuit (s : t) (st : CircuitState) : t :=
  mk (client s) (isConnected s) st (log s).
Definition logged (s : t) (msg : string) : t :=
  mk (client s) (isConnected s) (circuit s) (log s ++ [msg]).

Definition connection_error : exn :=
  Exn "MaxRetriesPerRequestError" "Reached the max retries per request limit".

(** *** Commands of the ioredis client *)

Definition client_get (key : string) (r : Redis) : res value * Redis :=
  if reachable r
  then (Ok (match kv r !! key with
            | Some (text, _) => VStr text
            | None => VNull
            end), r)
  else (Err connection_error, r).

Definition client_set (key text : string) (ex : option Z) (r : Redis)
  : res value * Redis :=
  if reachable r
  then (Ok (VStr "OK"), mkRedis (<[key := (text, ex)]> (kv r)) (reachable r))
  else (Err connection_error, r).

Definition client_del (keys : list string) (r : Redis) : res value * Redis :=
  if reachable r
  then
    let removed := filter (fun k => is_Some (kv r !! k)) keys in
    (Ok (VNum (Z.of_nat (length removed))),
     mkRedis (foldr delete (kv r) keys) (reachable r))
  else (Err connection_error, r).

Definition client_ping (r : Redis) : res value * Redis :=
  if reachable r then (Ok (VStr "PONG"), r) else (Err connection_error, r).

(** *** The circuit breaker *)

(** What [fire] is handed as its first argument: the name of a command, or
    a function. *)
Inductive command : Type :=
  | Name (name : string)
  | Closure (body : Redis -> res value * Redis).

(** [this.client[name]] for the commands this service knows of. *)
Definition client_method (name : string)
  : option (list value -> Redis -> res value * Redis) :=
  if String.eqb name "get" then
    Some (fun args => client_get (toString (nth 0 args VUndefined)))
  else if String.eqb name "set" then
    Some (fun args =>
            client_set (toString (nth 0 args VUndefined))
                       (toString (nth 1 args VUndefined))
                       (match nth 3 args VUndefined with
                        | VNum n => Some n
                        | _ => None
                        end))
  else if String.eqb name "del" then
    Some (fun args => client_del (map toString args))
  else if String.eqb name "ping" then
    Some (fun _ => client_ping)
  else None.

(** The action given to the breaker in [setupCircuitBreaker]:
    [async (command, ...args) => await this.client[command](...args)].
    [command] is used as a property key of the client.  A function used as
    a property key is its source text, which names no method of the client,
    so the call is a call of undefined. *)
Definition breaker_action (cmd : command) (args : list value) (r : Redis)
  : res value * Redis :=
  match cmd with
  | Name name =>
      match client_method name with
      | Some method => method args r
      | None => (Err (TypeError "this.client[command] is not a function"), r)
      end
  | Closure _ =>
      (Err (TypeError "this.client[command] is not a function"), r)
  end.

(** [this.circuitBreaker.fire(...args)].  While the circuit is open the
    call is rejected at once and the action does not run.  Otherwise the
    action runs on the arguments.  When it succeeds the circuit is closed:
    it stays closed, and the trial call of a half-open circuit closes it.
    When it fails the circuit opens.  A failed trial call always reopens
    it.  A closed circuit opens once more than [errorThresholdPercentage]
    = 50 % of the calls of its window have failed, with no minimum number
    of calls; the counts of the window are not modelled, and a failure is
    taken to open the circuit, as it does when the window holds no success.
    The window of this service never holds one: every call it fires fails
    (lemma [fire_closure]).  The reset timer, which makes an open circuit
    half-open after 30 s, is [resetTimeout] below; the call timeout of 3 s
    is not modelled. *)
Definition fire (cmd : command) (args : list value) (s : t) : res value * t :=
  match circuit s with
  | Open => (Err (Exn "Error" "Breaker is open"), s)
  | Closed | HalfOpen =>
      match breaker_action cmd args (client s) with
      | (Ok v, c) => (Ok v, with_circuit (with_client s c) Closed)
      | (Err e, c) => (Err e, with_circuit (with_client s c) Open)
      end
  end.

(** The reset timer of the breaker firing: an open circuit becomes
    half-open and lets one trial call through. *)
Definition resetTimeout (s : t) : t :=
  match circuit s with
  | Open => with_circuit s HalfOpen
  | _ => s
  end.

Section Service.
(** [JSON.stringify] (undefined for a value with no JSON text) and
    [JSON.parse] (throws a SyntaxError on text that is not JSON). *)
Variable JSON_stringify : value -> option string.
Variable JSON_parse : string -> res value.

Definition ensureConnection (s : t) : res () * t :=
  if isConnected s then (Ok (), s)
  else match client_ping (client s) with
       | (Ok _, c) => (Ok (), with_isConnected (with_client s c) true)
       | (Err e, c) =>
           (Err e, logged (with_client s c) "Redis Verbindungsfehler")
       end.

Definition set (key : string) (v : value) (expirationInSeconds : option Z)
  (s : t) : res () * t :=
  let attempt :=
    match ensureConnection s with
    | (Err e, s) => (Err e, s)
    | (Ok _, s) =>
        let stringifiedValue := default "" (JSON_stringify v) in
        let body :=
          match expirationInSeconds with
          | Some ex =>
              if ex =? 0 then client_set key stringifiedValue None
              else client_set key stringifiedValue (Some ex)
          | None => client_set key stringifiedValue None
          end in
        match fire (Closure body) [] s with
        | (Err e, s) => (Err e, s)
        | (Ok _, s) => (Ok (), logged s "Wert in Redis gesetzt")
        end
    end in
  match attempt with
  | (Ok u, s) => (Ok u, s)
  | (Err e, s) => (Err e, logged s "Fehler beim Setzen des Redis-Werts")
  end.

Definition get (key : string) (s : t) : res value * t :=
  let attempt :=
    match ensureConnection s with
    | (Err e, s) => (Err e, s)
    | (Ok _, s) =>
        match fire (Closure (client_get key)) [] s with
        | (Err e, s) => (Err e, s)
        | (Ok v, s) =>
            if negb (truthy v) then (Ok VNull, s)
            else (JSON_parse (toString v), s)
        end
    end in
  match attempt with
  | (Ok v, s) => (Ok v, s)
  | (Err e, s) => (Err e, logged s "Fehler beim Abrufen des Redis-Werts")
  end.

Definition del (keys : list string) (s : t) : res () * t :=
  let attempt :=
    match ensureConnection s with
    | (Err e, s) => (Err e, s)
    | (Ok _, s) =>
        match fire (Closure (client_del keys)) [] s with
        | (Err e, s) => (Err e, s)
        | (Ok _, s) => (Ok (), logged s "Schlüssel aus Redis gelöscht")
        end
    end in
  match attempt with
  | (Ok u, s) => (Ok u, s)
  | (Err e, s) =>
      (Err e, logged s "Fehler beim Löschen der Redis-Schlüssel")
  end.

#[global] Instance cacheClient : CacheClient t :=
  {| cache_get := get; cache_set := set; cache_del := del |}.
End Service.

End RedisService.

(** ** A cache client that keeps the contract

    An in-memory client that does what the methods of [RedisService] document:
    [set] stores the value under the key, [get] returns the stored value or
    null, [del] removes exactly the keys it is given; no call fails.  It
    stands where the resolver's test-suite puts its mock of [redisService]. *)
Module MemoryCache.

Abbreviation t := (gmap string (value * option Z)).

Definition get (key : string) (m : t) : res value * t :=
  (Ok (match m !! key with Some (v, _) => v | None => VNull end), m).

Definition set (key : string) (v : value) (ttl : option Z) (m : t)
  : res () * t :=
  (Ok (), <[key := (v, ttl)]> m).

Definition del (keys : list string) (m : t) : res () * t :=
  (Ok (), foldr delete m keys).

#[global] Instance cacheClient : CacheClient t :=
  {| cache_get := get; cache_set := set; cache_del := del |}.

End MemoryCache.

(** ** Read operations, uniformly *)

Inductive read_op : Type :=
| ReadProducts (limit offset : Z)
| ReadProduct (id : string)
| ReadCategory (product : row)
| ReadReviews (product : row)
| ReadVariants (product : row).

Section Reads.
Context {C : Type} `{CacheClient C}.

Definition run_read (op : read_op) : M C value :=
  match op with
  | ReadProducts limit offset => products limit offset
  | ReadProduct id => product id
  | ReadCategory p => category p
  | ReadReviews p => reviews p
  | ReadVariants p => variants p
  end.

(** The cache key the operation computes in a world; the category resolver
    computes one only when the side table knows the product. *)
Definition read_key (op : read_op) (w : World C) : option string :=
  match op with
  | ReadProducts limit offset => Some (products_cacheKey limit offset)
  | ReadProduct id => Some (product_cacheKey id)
  | ReadCategory p =>
      category_cacheKey <$> Map_get (productData w) (getProp p "id")
  | ReadReviews p => Some (reviews_cacheKey p)
  | ReadVariants p => Some (variants_cacheKey p)
  end.

(** The message each operation logs before it rethrows. *)
Definition read_log (op : read_op) : string :=
  match op with
  | ReadProducts _ _ => "Fehler beim Abrufen der Produkte"
  | ReadProduct _ => "Fehler beim Abrufen des Produkts"
  | ReadCategory _ => "Fehler beim Abrufen der Kategorie"
  | ReadReviews _ => "Fehler beim Abrufen der Bewertungen"
  | ReadVariants _ => "Fehler beim Abrufen der Varianten"
  end.
End Reads.

(** Calls that reach the record store. *)
Definition is_store_call (ev : event) : bool :=
  match ev with
  | EvPoolQuery _ _ | EvConnect | EvClientQuery _ _ => true
  | _ => false
  end.

(** The keys the cache was asked about, read or written. *)
Definition cache_keys_of (ev : event) : list string :=
  match ev with
  | EvCacheGet k | EvCacheSet k _ _ => [k]
  | EvCacheDel ks => ks
  | _ => []
  end.

Definition is_cache_del (ev : event) : bool :=
  match ev with EvCacheDel _ => true | _ => false end.

Definition is_cache_set (ev : event) : bool :=
  match ev with EvCacheSet _ _ _ => true | _ => false end.

(** ** The key templates of the design note *)

Module KeyTemplate.
Inductive segment : Type :=
  | Lit (text : string)
  | Hole (name : string).

Fixpoint instantiate (t : list segment) (args : list (string * string))
  : string :=
  match t with
  | [] => ""
  | Lit text :: t' => text +:+ instantiate t' args
  | Hole name :: t' =>
      default "" (snd <$> find (fun a => String.eqb (fst a) name) args)
        +:+ instantiate t' args
  end.

(** [products:{limit}:{offset}] *)
Definition products : list segment :=
  [Lit "products:"; Hole "limit"; Lit ":"; Hole "offset"].
(** [product:{id}] *)
Definition product : list segment := [Lit "product:"; Hole "id"].
(** [category:{id}] *)
Definition category : list segment := [Lit "category:"; Hole "id"].
(** [reviews:{productId}] *)
Definition reviews : list segment := [Lit "reviews:"; Hole "productId"].
(** [variants:{productId}] *)
Definition variants : list segment := [Lit "variants:"; Hole "productId"].
End KeyTemplate.

(** The template a read operation is declared to use, with the text of its
    arguments. *)
Definition declared_key {C} (op : read_op) (w : World C) : option string :=
  match op with
  | ReadProducts limit offset =>
      Some (KeyTemplate.instantiate KeyTemplate.products
              [("limit", pretty limit); ("offset", pretty offset)])
  | ReadProduct id =>
      Some (KeyTemplate.instantiate KeyTemplate.product [("id", id)])
  | ReadCategory p =>
      match Map_get (productData w) (getProp p "id") with
      | Some raw =>
          Some (KeyTemplate.instantiate KeyTemplate.category
                  [("id", toString (getProp raw "category_id"))])
      | None => None
      end
  | ReadReviews p =>
      Some (KeyTemplate.instantiate KeyTemplate.reviews
              [("productId", toString (getProp p "id"))])
  | ReadVariants p =>
      Some (KeyTemplate.instantiate KeyTemplate.variants
              [("productId", toString (getProp p "id"))])
  end.


(** ** The transaction of createProduct, statement by statement *)

(** The variants the loop inserts: none when [input.variants] is absent. *)
Definition variants_of (input : CreateProductInput.t)
  : list ProductVariantInput.t :=
  default [] (CreateProductInput.variants input).

(** The first entry of a fault plan, among its first [m], that throws: its
    position, the error, and the plan left after it. *)
Fixpoint first_fault (f : list (option exn)) (m : nat) {struct m}
  : option (nat * exn * list (option exn)) :=
  match m, f with
  | O, _ => None
  | S _, [] => None
  | S _, Some e :: rest => Some (O, e, rest)
  | S m', None :: rest =>
      match first_fault rest m' with
      | Some (k, e, r) => Some (S k, e, r)
      | None => None
      end
  end.

(** The statements of a transaction that runs to its COMMIT, as calls on the
    connection; [product_id] is the id the store assigned to the product. *)
Definition transaction_calls (input : CreateProductInput.t)
  (product_id : value) : list event :=
  [EvClientQuery Begin []; EvClientQuery InsertProduct (product_params input)]
  ++ map (fun v => EvClientQuery InsertVariant (variant_params product_id v))
         (variants_of input)
  ++ [EvClientQuery Commit []].

(** The variant rows the store holds once the loop has run, ids counting up
    from [id]. *)
Fixpoint variant_rows (product_id : value) (id : Z)
  (vs : list ProductVariantInput.t) : list row :=
  match vs with
  | [] => []
  | v :: vs' =>
      variant_row id (variant_params product_id v)
        :: variant_rows product_id (id + 1) vs'
  end.

Definition is_client_query (ev : event) : bool :=
  match ev with EvClientQuery _ _ => true | _ => false end.

(** The committed tables of the store are those of [d] extended by the new
    product and all of its variants. *)
Definition committed_whole (input : CreateProductInput.t) (d d' : Pg) : Prop :=
  products_tbl d'
    = products_tbl d ++ [product_row (next_id d) (product_params input)] /\
  variants_tbl d'
    = variants_tbl d
      ++ variant_rows (VStr (pretty (next_id d))) (next_id d + 1)
                      (variants_of input).

(** The committed tables of the store are untouched. *)
Definition committed_nothing (d d' : Pg) : Prop :=
  products_tbl d' = products_tbl d /\ variants_tbl d' = variants_tbl d.

(** ** Vocabulary of the properties *)

Section Vocabulary.
Context {C : Type} `{CacheClient C}.

(** The part of a world the store calls leave alone. *)
Definition same_instance (w w' : World C) : Prop :=
  cache w' = cache w /\ productData w' = productData w /\
  reviewData w' = reviewData w /\ variantData w' = variantData w.

(** A computation that leaves [productData] as it found it. *)
Definition keeps_productData {A} (m : M C A) : Prop :=
  forall w, productData (m w).2 = productData w.

(** What the [catch] of the transaction does with an error: it sends
    ROLLBACK and rethrows, unless ROLLBACK throws first. *)
Definition after_rollback (e : exn) (w1 : World C) : res value * World C :=
  let w2 := emit (EvClientQuery Rollback []) w1 in
  let (r, d) := pg_client_query Rollback [] (db w1) in
  let w3 := emit (EvLog "Fehler beim Erstellen des Produkts")
            (emit EvRelease (with_db w2 d)) in
  match r with
  | Ok _ => (Err e, w3)
  | Err e' => (Err e', w3)
  end.

End Vocabulary.

(** A fault plan whose next statement runs. *)
Definition passes (f : list (option exn)) : Prop :=
  match f with Some _ :: _ => False | _ => True end.

(** The error of the category resolver for a product it has no raw row of. *)
Definition not_found : exn := Error "Product data not found".

(** ** Concrete worlds *)

Module Concrete.

(** A schema verdict that accepts every input. *)
Definition accept_all (_ : CreateProductInput.t) : option exn := None.

(** The product row of the resolver's test-suite. *)
Definition row1 : row :=
  [ ("id", VStr "1"); ("name", VStr "Produkt 1");
  ("description", VStr "Beschreibung 1"); ("price", VNum 100);
  ("sku", VStr "SKU1"); ("brand", VStr "Marke1"); ("stock", VNum 10);
  ("category_id", VStr "cat1"); ("is_active", VBool true) ].

(** A store whose product list has that one row and whose other reads find
    nothing; [f] is the fault plan of its connection. *)
Definition store (f : list (option exn)) : Pg :=
  mkPg (fun q _ => match q with
                 | SelectProductsPage => Ok [row1]
                 | _ => Ok []
                 end)
     None [] [] None 1 f.

Definition world {C} (c : C) (d : Pg) : World C := mkWorld c d [] [] [] [].

(** An empty cache, and one that holds a page of the product list. *)
Definition cold : MemoryCache.t := ∅.
Definition page : value :=
  VArr [VObj [("id", VStr "2"); ("name", VStr "Produkt 2")]].
Definition warm : MemoryCache.t := {[ "products:10:0" := (page, Some 300) ]}.

Definition variant_red : ProductVariantInput.t :=
  ProductVariantInput.mk "red" "M" 100 5.
Definition variant_blue : ProductVariantInput.t :=
  ProductVariantInput.mk "blue" "L" 110 7.

Definition input : CreateProductInput.t :=
  CreateProductInput.mk "Neues Produkt" "Detaillierte Beschreibung" 100
  None None 50 "fd5f0dfe-a9ed-4234-b0a0-afc3c187c10b"
  (Some [variant_red; variant_blue]).

(** The input of the test-suite: no variants. *)
Definition input_plain : CreateProductInput.t :=
  CreateProductInput.mk "Neues Produkt" "Detaillierte Beschreibung" 100
    None None 50 "fd5f0dfe-a9ed-4234-b0a0-afc3c187c10b" (Some []).

Definition insert_error : exn := Error "insert failed".
Definition rollback_error : exn := Error "rollback failed".

(** JSON text of the scalar values, enough to run the cache client on
    examples. *)
Definition stringify_scalar (v : value) : option string :=
  match v with
  | VNull => Some "null"
  | VBool true => Some "true"
  | VBool false => Some "false"
  | VNum n => Some (pretty n)
  | _ => None
  end.

Definition parse_scalar (text : string) : res value :=
  if String.eqb text "null" then Ok VNull
  else if String.eqb text "true" then Ok (VBool true)
  else if String.eqb text "false" then Ok (VBool false)
  else Err (Exn "SyntaxError" "Unexpected token").

(** The cache client of the repository with a server that answers, and with
    one that does not. *)
Definition healthy (entries : gmap string (string * option Z))
  : RedisService.t :=
  RedisService.mk (RedisService.mkRedis entries true) true
                RedisService.Closed [].
Definition unreachable : RedisService.t :=
  RedisService.mk (RedisService.mkRedis ∅ false) false
                RedisService.Closed [].

End Concrete.

(** * More of the resolver and of its surroundings *)

(** ** What a read sends, writes and logs *)

(** The expiry, in seconds, each read path gives the entry it writes. *)
Definition read_ttl (op : read_op) : Z :=
  match op with
  | ReadProducts _ _ => 300
  | ReadProduct _ => 3600
  | ReadCategory _ => 3600
  | ReadReviews _ => 1800
  | ReadVariants _ => 1800
  end.

(** The store query a read sends when the cache has nothing for it. *)
Definition read_query {C} (op : read_op) (w : World C)
  : option (sql * list value) :=
  match op with
  | ReadProducts limit offset =>
      Some (SelectProductsPage, [VNum limit; VNum offset])
  | ReadProduct id => Some (SelectProductById, [VStr id])
  | ReadCategory p =>
      match Map_get (productData w) (getProp p "id") with
      | Some raw => Some (SelectCategoryById, [getProp raw "category_id"])
      | None => None
      end
  | ReadReviews p => Some (SelectReviews, [getProp p "id"])
  | ReadVariants p => Some (SelectVariants, [getProp p "id"])
  end.

Definition is_log (ev : event) : bool :=
  match ev with EvLog _ => true | _ => false end.

Definition is_cache_get (ev : event) : bool :=
  match ev with EvCacheGet _ => true | _ => false end.

(** Calls only the mutation makes: on the pooled connection, or deleting
    from the cache. *)
Definition is_mutation_call (ev : event) : bool :=
  match ev with
  | EvCacheDel _ | EvConnect | EvClientQuery _ _ | EvRelease => true
  | _ => false
  end.

(** How many events of a kind a run made. *)
Definition count (kind : event -> bool) (evs : list event) : nat :=
  length (List.filter kind evs).

(** A cache client on which a value that was looked up or written under a
    key is what the next lookup of the key finds. *)
Definition reads_back (C : Type) `{CacheClient C} : Prop :=
  (forall key c v c',
     cache_get key c = (Ok v, c') -> cache_get key c' = (Ok v, c')) /\
  (forall key v ttl c c',
     cache_set key v ttl c = (Ok (), c') -> cache_get key c' = (Ok v, c')).

Definition is_list_read (op : read_op) : bool :=
  match op with ReadProducts _ _ => true | _ => false end.

(** ** What the mutation sends *)

Definition is_release (ev : event) : bool :=
  match ev with EvRelease => true | _ => false end.

(** A call made between BEGIN and the end of the transaction block: a
    statement on the connection, or the delete of the literal key. *)
Definition is_transaction_call (ev : event) : bool :=
  match ev with
  | EvClientQuery _ _ => true
  | EvCacheDel keys => bool_decide (keys = ["products:*"])
  | _ => false
  end.

(** A computation all of whose calls are of a given kind. *)
Definition emits_only {C A} (kind : event -> bool) (m : M C A) : Prop :=
  forall w, exists evs,
    trace (m w).2 = trace w ++ evs /\ forallb kind evs = true.

(** ** The rest of the cache client *)

Module RedisLifecycle.

(** [retryStrategy] of the client's options: the delay, in milliseconds,
    before reconnection attempt number [times]; the attempt is logged. *)
Definition retryStrategy (times : Z) (s : RedisService.t)
  : Z * RedisService.t :=
  let delay := Z.min (times * 50) 2000 in
  (delay, RedisService.logged s "Redis Verbindung wird neu versucht").

(** The events of the ioredis client the service listens to. *)
Inductive client_event : Type :=
| OnConnect
| OnError (message : string)
| OnEnd.

(** The handlers installed by [setupEventHandlers]. *)
Definition handle (ev : client_event) (s : RedisService.t) : RedisService.t :=
  match ev with
  | OnConnect =>
      RedisService.logged (RedisService.with_isConnected s true)
                          "Redis Verbindung hergestellt"
  | OnError _ =>
      RedisService.logged (RedisService.with_isConnected s false)
                          "Redis Client Error"
  | OnEnd =>
      RedisService.logged (RedisService.with_isConnected s false)
                          "Redis Verbindung beendet"
  end.

(** The handlers run on a sequence of events, oldest first. *)
Definition handle_all (evs : list client_event) (s : RedisService.t)
  : RedisService.t :=
  fold_left (fun s ev => handle ev s) evs s.

(** [close], over the outcome of [this.client.quit()].  What ioredis
    answers is the library's business: OK on a ready connection and on an
    offline client with nothing queued, a rejection on a connection that
    has ended. *)
Definition close (quit : RedisService.Redis -> res value * RedisService.Redis)
  (s : RedisService.t) : res () * RedisService.t :=
  let attempt :=
    if RedisService.isConnected s then
      match quit (RedisService.client s) with
      | (Err e, c) => (Err e, RedisService.with_client s c)
      | (Ok _, c) =>
          (Ok (),
           RedisService.logged
             (RedisService.with_isConnected (RedisService.with_client s c)
                                            false)
             "Redis Verbindung geschlossen")
      end
    else (Ok (), s) in
  match attempt with
  | (Ok u, s) => (Ok u, s)
  | (Err e, s) =>
      (Err e,
       RedisService.logged s "Fehler beim Schließen der Redis-Verbindung")
  end.

(** The error [get], [set] and [del] end in, by the state of the service:
    the failed probe when the flag is down and the server silent, else the
    open circuit, else the call of undefined inside the breaker. *)
Definition rejection (s : RedisService.t) : exn :=
  if negb (RedisService.isConnected s)
     && negb (RedisService.reachable (RedisService.client s))
  then RedisService.connection_error
  else match RedisService.circuit s with
       | RedisService.Open => Exn "Error" "Breaker is open"
       | _ => TypeError "this.client[command] is not a function"
       end.

End RedisLifecycle.

(** ** The database helper *)

Module Database.
Section Database.
Context {C : Type}.

Definition logger_info (msg : string) : M C () :=
  fun w => (Ok (), emit (EvLog msg) w).

Definition query (text : sql) (params : list value) : M C (list row) :=
  try_catch
    (rows <- pool_query text params ;;
     logger_info "Abfrage ausgeführt" ;;;
     ret rows)
    (fun error => logger_error "Fehler bei der Abfrage" ;;; throw error).

Definition transaction {A} (callback : M C A) : M C A :=
  pool_connect ;;;
  try_finally
    (try_catch
       (client_query Begin [] ;;;
        result <- callback ;;
        client_query Commit [] ;;;
        ret result)
       (fun error =>
          client_query Rollback [] ;;;
          logger_error "Transaktionsfehler" ;;;
          throw error))
    client_release.

(** [result.rows[0] || null] *)
Definition queryOne (text : sql) (params : list value) : M C value :=
  rows <- query text params ;;
  ret (match head rows with Some r => VObj r | None => VNull end).

(** A callback that does its writes inside the transaction it is given: it
    commits nothing itself and leaves the transaction open. *)
Definition stays_in_transaction {A} (callback : M C A) : Prop :=
  forall w, is_Some (txn (db w)) ->
    committed_nothing (db w) (db (callback w).2) /\
    is_Some (txn (db (callback w).2)).

(** What the [catch] and the [finally] of [transaction] do with an error:
    ROLLBACK, the log entry, the rethrow, the release. *)
Definition rolled_back {A} (e : exn) (w : World C) : res A * World C :=
  let (r, w') := (client_query Rollback [] ;;;
                  logger_error "Transaktionsfehler" ;;;
                  throw e) w in
  (r, emit EvRelease w').

End Database.
End Database.

(** ** More concrete worlds *)

Module Sample.

Definition store_error : exn := Error "connection terminated unexpectedly".

(** A store every read of which throws. *)
Definition broken_store : Pg :=
  mkPg (fun _ _ => Err store_error) None [] [] None 1 [].

(** A review as the store returns it, and one whose [created_at] is
    missing. *)
Definition review : row :=
  [ ("id", VStr "r1"); ("product_id", VStr "1"); ("user_id", VStr "u1");
    ("rating", VNum 5); ("comment", VStr "gut");
    ("created_at", VDate "2024-05-01T10:00:00.000Z"
                         "Wed May 01 2024 12:00:00 GMT+0200") ].
Definition undated_review : row :=
  [ ("id", VStr "r2"); ("product_id", VStr "1"); ("user_id", VStr "u2");
    ("rating", VNum 3) ].
(** One whose [created_at] is an Invalid Date. *)
Definition misdated_review : row :=
  [ ("id", VStr "r3"); ("product_id", VStr "1"); ("user_id", VStr "u3");
    ("rating", VNum 4); ("created_at", VInvalidDate) ].

(** A store whose reviews query returns the three. *)
Definition review_store : Pg :=
  mkPg (fun q _ => match q with
                   | SelectReviews =>
                       Ok [review; misdated_review; undated_review]
                   | _ => Ok []
                   end)
       None [] [] None 1 [].

(** The product the list read of the test-suite returns. *)
Definition product1 : row := mapProductDBToProduct Concrete.row1.

(** A resolver instance that has the raw row of that product. *)
Definition knowing {C} (c : C) (d : Pg) : World C :=
  mkWorld c d [(VStr "1", Concrete.row1)] [] [] [].

Definition validation_error : exn :=
  Exn "ValidationError" "name is a required field".
Definition reject_all (_ : CreateProductInput.t) : option exn :=
  Some validation_error.

(** A callback that inserts one product on the connection it is given. *)
Definition insert_one {C} : M C () :=
  (client_query InsertProduct (product_params Concrete.input) ;;; ret ())%call.

End Sample.
(** * Properties *)

(** ** Traces *)

Lemma events_since_app {C} (w w' : World C) (evs : list event) :
  trace w' = trace w ++ evs -> events_since w w' = evs.
Proof.
  intros Heq. unfold events_since. rewrite Heq.
  by rewrite drop_app_length.
Qed.

Lemma events_since_refl {C} (w : World C) : events_since w w = [].
Proof. apply events_since_app. by rewrite app_nil_r. Qed.

Lemma payload_truthy (v : value) :
  match v with VArr _ | VObj _ => truthy v = true | _ => True end.
Proof. by destruct v. Qed.

Section ReadProperties.
Context {C : Type} `{CacheClient C}.

Ltac step_get Hget :=
  unfold try_catch, bind, redisService_get; cbn;
  rewrite Hget; cbn.

(** C5. A read whose key the cache answers with a value returns that value
    and asks the record store nothing: the only call it makes is the cache
    lookup. *)
Theorem cache_hit_short_circuit (op : read_op) (w : World C)
    (key : string) (v : value) (c : C) :
  read_key op w = Some key ->
  cache_get key (cache w) = (Ok v, c) ->
  truthy v = true ->
  run_read op w = (Ok v, with_cache (emit (EvCacheGet key) w) c) /\
  events_since w (run_read op w).2 = [EvCacheGet key] /\
  db (run_read op w).2 = db w.
Proof.
  intros Hkey Hget Hv.
  assert (Hrun : run_read op w
                 = (Ok v, with_cache (emit (EvCacheGet key) w) c)).
  { destruct op as [limit offset|id|p|p|p]; cbn in Hkey.
    - injection Hkey as <-. unfold run_read, products.
      step_get Hget. by rewrite Hv.
    - injection Hkey as <-. unfold run_read, product.
      step_get Hget. by rewrite Hv.
    - unfold run_read, category.
      destruct (Map_get (productData w) (getProp p "id")) as [raw|];
        [|discriminate].
      injection Hkey as <-. step_get Hget. by rewrite Hv.
    - injection Hkey as <-. unfold run_read, reviews.
      step_get Hget. by rewrite Hv.
    - injection Hkey as <-. unfold run_read, variants.
      step_get Hget. by rewrite Hv. }
  rewrite Hrun. split; [done|]. split; [|done].
  by apply events_since_app.
Qed.

(** C3 (as the code has it). A read whose cache lookup fails does not fall
    back to the record store: it logs and rethrows the cache client's error,
    having asked the store nothing. *)
Theorem cache_failure_is_rethrown (op : read_op) (w : World C)
    (key : string) (e : exn) (c : C) :
  read_key op w = Some key ->
  cache_get key (cache w) = (Err e, c) ->
  run_read op w
    = (Err e, emit (EvLog (read_log op))
                   (with_cache (emit (EvCacheGet key) w) c)) /\
  events_since w (run_read op w).2 = [EvCacheGet key; EvLog (read_log op)].
Proof.
  intros Hkey Hget.
  assert (Hrun : run_read op w
            = (Err e, emit (EvLog (read_log op))
                           (with_cache (emit (EvCacheGet key) w) c))).
  { destruct op as [limit offset|id|p|p|p]; cbn in Hkey.
    - injection Hkey as <-. unfold run_read, products. by step_get Hget.
    - injection Hkey as <-. unfold run_read, product. by step_get Hget.
    - unfold run_read, category.
      destruct (Map_get (productData w) (getProp p "id")) as [raw|];
        [|discriminate].
      injection Hkey as <-. by step_get Hget.
    - injection Hkey as <-. unfold run_read, reviews. by step_get Hget.
    - injection Hkey as <-. unfold run_read, variants. by step_get Hget. }
  rewrite Hrun. split; [done|].
  apply events_since_app. cbn. by rewrite <- app_assoc.
Qed.

End ReadProperties.

Lemma append_empty_r (s : string) : s +:+ "" = s.
Proof.
  induction s as [|a s IH]; [done|].
  change (String a s +:+ "") with (String a (s +:+ "")). by rewrite IH.
Qed.

Section KeyProperties.
Context {C : Type} `{CacheClient C}.

Ltac run_step :=
  match goal with
  | |- context [cache_get ?k ?c] =>
      destruct (cache_get k c) as [[?|?] ?] eqn:?
  | |- context [cache_set ?k ?v ?t ?c] =>
      destruct (cache_set k v t c) as [[?|?] ?] eqn:?
  | |- context [select ?d ?q ?ps] =>
      destruct (select d q ps) as [?|?] eqn:?
  | |- context [head ?l] => destruct l as [|? ?]
  | |- context [map_throwing ?f ?l] =>
      destruct (map_throwing f l) as [?|?] eqn:?
  | |- context [if truthy ?v then _ else _] =>
      destruct (truthy v) eqn:?
  | |- context [Map_get ?m ?k] =>
      destruct (Map_get m k) as [?|] eqn:?
  end.

Ltac run_all :=
  unfold run_read, products, product, category, reviews, variants,
    try_catch, bind, redisService_get, redisService_set, pool_query,
    logger_error, throw, ret, lift_res, remember_rows, remember_reviews,
    remember_variants;
  repeat (cbn -[toString pretty String.append events_since fold_left Map_set
                mapProductDBToProduct mapVariantDBToVariant map_throwing map];
          try run_step).

Lemma read_key_declared (op : read_op) (w : World C) :
  read_key op w = declared_key op w.
Proof.
  destruct op as [limit offset|id|p|p|p]; cbn;
    unfold products_cacheKey, product_cacheKey, category_cacheKey,
      reviews_cacheKey, variants_cacheKey; cbn -[String.append];
    rewrite ?append_empty_r; try done.
  destruct (Map_get (productData w) (getProp p "id")); cbn; [|done].
  by rewrite append_empty_r.
Qed.

Lemma read_trace (op : read_op) (w : World C) :
  exists evs, events_since w (run_read op w).2 = evs /\
    (forall key, read_key op w = Some key ->
       head evs = Some (EvCacheGet key)) /\
    forall ev k, ev ∈ evs -> k ∈ cache_keys_of ev -> read_key op w = Some k.
Proof.
  destruct op as [limit offset|id|p|p|p]; run_all.
  all: eexists; split;
    [first [apply events_since_refl
           |apply events_since_app; cbn; rewrite <- ?app_assoc; cbn;
            reflexivity]|].
  all: split; [intros key Hkey; by inversion Hkey|].
  all: intros ev k Hev;
    repeat (apply elem_of_cons in Hev as [->|Hev]);
    try (by apply elem_of_nil in Hev);
    cbn; intros Hk; try (by apply elem_of_nil in Hk);
    by apply list_elem_of_singleton in Hk as ->.
Qed.

(** C6. The key a read computes is the instance of its declared template
    at the text of its arguments; the read starts by looking that key up, and
    every key it reads or writes in the cache is that same key. *)
Theorem read_keys_match_templates (op : read_op) (w : World C) :
  read_key op w = declared_key op w /\
  (forall key, declared_key op w = Some key ->
     head (events_since w (run_read op w).2) = Some (EvCacheGet key)) /\
  (forall ev k, ev ∈ events_since w (run_read op w).2 ->
     k ∈ cache_keys_of ev -> declared_key op w = Some k).
Proof.
  destruct (read_trace op w) as (evs & Hevs & Hhead & Hall).
  rewrite Hevs, <- read_key_declared. auto.
Qed.

End KeyProperties.

Section ProductProperties.
Context {C : Type} `{CacheClient C}.

Lemma product_miss_no_row (id : string) (w : World C) (v : value) (c : C) :
  cache_get (product_cacheKey id) (cache w) = (Ok v, c) ->
  truthy v = false ->
  select (db w) SelectProductById [VStr id] = Ok [] ->
  product id w
    = (Ok VNull,
       emit (EvPoolQuery SelectProductById [VStr id])
         (with_cache (emit (EvCacheGet (product_cacheKey id)) w) c)).
Proof.
  intros Hget Hv Hsel.
  unfold product, try_catch, bind, redisService_get, pool_query; cbn.
  rewrite Hget; cbn. rewrite Hv; cbn. by rewrite Hsel.
Qed.

(** C7. A lookup that misses the cache and finds no row returns null, an
    ordinary result and not an error, and writes nothing to the cache: its
    only calls are the cache lookup and the store query.  Asked again while
    the cache still has nothing under the key, it queries the store again. *)
Theorem product_not_found_is_not_cached (id : string) (w : World C)
    (v : value) (c : C) :
  cache_get (product_cacheKey id) (cache w) = (Ok v, c) ->
  truthy v = false ->
  select (db w) SelectProductById [VStr id] = Ok [] ->
  let calls := [EvCacheGet (product_cacheKey id);
                EvPoolQuery SelectProductById [VStr id]] in
  let w1 := (product id w).2 in
  (product id w).1 = Ok VNull /\
  events_since w w1 = calls /\
  cache w1 = c /\
  (forall v2 c2,
     cache_get (product_cacheKey id) c = (Ok v2, c2) ->
     truthy v2 = false ->
     (product id w1).1 = Ok VNull /\
     events_since w1 (product id w1).2 = calls).
Proof.
  intros Hget Hv Hsel calls w1. subst w1.
  rewrite (product_miss_no_row id w v c Hget Hv Hsel). cbn [fst snd].
  split; [done|]. split.
  { apply events_since_app. cbn. by rewrite <- app_assoc. }
  split; [done|].
  intros v2 c2 Hget2 Hv2.
  erewrite product_miss_no_row; [|exact Hget2|exact Hv2|exact Hsel].
  cbn [fst snd]. split; [done|].
  apply events_since_app. cbn. by rewrite <- app_assoc.
Qed.

(** What a list read that misses does with the rows it finds: the cache is
    given the rows as the store returned them, the caller their mapped
    form. *)
Lemma products_miss (limit offset : Z) (w : World C) (v : value) (c c' : C)
    (rows : list row) :
  cache_get (products_cacheKey limit offset) (cache w) = (Ok v, c) ->
  truthy v = false ->
  select (db w) SelectProductsPage [VNum limit; VNum offset] = Ok rows ->
  cache_set (products_cacheKey limit offset) (VArr (map VObj rows))
            (Some 300) c = (Ok (), c') ->
  (products limit offset w).1
    = Ok (VArr (map (fun r => VObj (mapProductDBToProduct r)) rows)) /\
  events_since w (products limit offset w).2
    = [EvCacheGet (products_cacheKey limit offset);
       EvPoolQuery SelectProductsPage [VNum limit; VNum offset];
       EvCacheSet (products_cacheKey limit offset) (VArr (map VObj rows))
                  (Some 300)] /\
  productData (products limit offset w).2
    = fold_left (fun m r => Map_set m (getProp r "id") r) rows (productData w).
Proof.
  intros Hget Hv Hsel Hset.
  unfold products, try_catch, bind, redisService_get, pool_query,
    redisService_set, remember_rows; cbn.
  rewrite Hget; cbn. rewrite Hv; cbn. rewrite Hsel; cbn. rewrite Hset; cbn.
  split; [done|]. split; [|done].
  apply events_since_app. cbn. by rewrite <- !app_assoc.
Qed.

End ProductProperties.

(** ** The mutation *)

Lemma first_fault_nil (m : nat) : first_fault [] m = None.
Proof. by destruct m. Qed.

Section MutationProperties.
Context {C : Type} `{CacheClient C}.

Lemma same_instance_refl (w : World C) : same_instance w w.
Proof. by repeat split. Qed.

Abbreviation variant_loop p vs :=
  (for_of (C := C) vs (fun variant =>
     product_id <- lift_res (inserted_id (Some p)) ;;
     client_query InsertVariant (variant_params product_id variant) ;;;
     ret ())).

Lemma variant_loop_cons (p : row) (v : ProductVariantInput.t)
    (vs : list ProductVariantInput.t) (w : World C) :
  variant_loop p (v :: vs) w
  = let call := EvClientQuery InsertVariant
                  (variant_params (getProp p "id") v) in
    match pg_client_query InsertVariant (variant_params (getProp p "id") v)
                          (db w) with
    | (Ok _, d) => variant_loop p vs (with_db (emit call w) d)
    | (Err e, d) => (Err e, with_db (emit call w) d)
    end.
Proof.
  cbn [for_of]. unfold bind, lift_res, client_query, ret. cbn.
  by destruct (pg_client_query _ _ _) as [[?|?] ?].
Qed.

Lemma variant_loop_run (p : row) (vs : list ProductVariantInput.t) :
  forall (w : World C) ps pvs,
    txn (db w) = Some (ps, pvs) ->
    let w' := (variant_loop p vs w).2 in
    same_instance w w' /\ committed_nothing (db w) (db w') /\
    match first_fault (faults (db w)) (length vs) with
    | Some (j, e, rest) =>
        (variant_loop p vs w).1 = Err e /\
        faults (db w') = rest /\
        is_Some (txn (db w')) /\
        exists evs, trace w' = trace w ++ evs /\
                    forallb is_client_query evs = true
    | None =>
        (variant_loop p vs w).1 = Ok () /\
        faults (db w') = drop (length vs) (faults (db w)) /\
        txn (db w')
          = Some (ps, pvs ++ variant_rows (getProp p "id")
                                          (next_id (db w)) vs) /\
        trace w'
          = trace w
            ++ map (fun v => EvClientQuery InsertVariant
                               (variant_params (getProp p "id") v)) vs
    end.
Proof.
  induction vs as [|v vs IH]; intros w ps pvs Htxn; cbn zeta.
  - cbn. rewrite !app_nil_r, drop_0.
    split; [apply same_instance_refl|]. by repeat split.
  - rewrite variant_loop_cons. cbn zeta.
    cbn [length first_fault variant_rows map].
    unfold pg_client_query.
    destruct (faults (db w)) as [|[e|] rest] eqn:Hf.
    + (* the plan is exhausted: the statement runs *)
      unfold pg_run. cbn [pg_with_next_id txn]. rewrite Htxn.
      set (w1 := with_db _ _).
      specialize (IH w1 ps (pvs ++ [variant_row (next_id (db w))
                                     (variant_params (getProp p "id") v)])).
      assert (Hf1 : faults (db w1) = []) by (subst w1; cbn; by rewrite Hf).
      rewrite Hf1, first_fault_nil in IH.
      destruct IH as (Hsame & Hcomm & Hr & Hfl & Ht & Htr); [done|].
      rewrite Hr, Hfl, Ht, Htr.
      split; [destruct Hsame as (?&?&?&?); by repeat split|].
      split; [destruct Hcomm; by split|].
      split; [done|]. rewrite drop_nil. split; [done|].
      split; [by rewrite <- app_assoc|]. cbn. by rewrite <- app_assoc.
    + (* the statement is planned to throw *)
      cbn.
      split; [by repeat split|]. split; [by split|].
      split; [done|]. split; [done|]. split; [by rewrite Htxn|].
      eexists. split; [reflexivity|done].
    + (* the statement runs *)
      unfold pg_run. cbn [pg_with_next_id pg_with_faults txn]. rewrite Htxn.
      set (w1 := with_db _ _).
      specialize (IH w1 ps (pvs ++ [variant_row (next_id (db w))
                                     (variant_params (getProp p "id") v)])).
      assert (Hf1 : faults (db w1) = rest) by done.
      rewrite Hf1 in IH.
      destruct IH as (Hsame & Hcomm & IH); [done|].
      split; [destruct Hsame as (?&?&?&?); by repeat split|].
      split; [destruct Hcomm; by split|].
      destruct (first_fault rest (length vs)) as [[[j e] r]|].
      * destruct IH as (Hr & Hfl & Ht & evs & Htr & Hevs).
        rewrite Hr. split; [done|]. split; [done|]. split; [done|].
        eexists. split; [rewrite Htr; cbn; by rewrite <- app_assoc|done].
      * destruct IH as (Hr & Hfl & Ht & Htr).
        rewrite Hr, Ht, Htr. split; [done|]. split; [done|].
        split; [by rewrite <- app_assoc|]. cbn. by rewrite <- app_assoc.
Qed.

Lemma insert_variants_loop (p : row) (input : CreateProductInput.t)
    (w : World C) :
  insert_variants (Some p) (CreateProductInput.variants input) w
  = variant_loop p (variants_of input) w.
Proof.
  unfold insert_variants, variants_of.
  by destruct (CreateProductInput.variants input) as [[|v vs]|].
Qed.

Lemma first_fault_pass (rest : list (option exn)) (m : nat) :
  first_fault (None :: rest) (S m)
  = match first_fault rest m with
    | Some (k, e, r) => Some (S k, e, r)
    | None => None
    end.
Proof. done. Qed.

Lemma first_fault_succ (f : list (option exn)) (n : nat) :
  first_fault f (S n)
  = match first_fault f n with
    | Some x => Some x
    | None => match drop n f with
              | Some e :: rest => Some (n, e, rest)
              | _ => None
              end
    end.
Proof.
  revert f. induction n as [|n IH]; intros f.
  - cbn. by destruct f as [|[e|] rest].
  - destruct f as [|[e|] rest]; [done|done|].
    rewrite (first_fault_pass rest (S n)), IH, first_fault_pass. cbn [drop].
    destruct (first_fault rest n) as [[[k e] r]|]; [done|].
    by destruct (drop n rest) as [|[e|] r].
Qed.

Lemma variant_calls_are_queries (pid : value)
    (vs : list ProductVariantInput.t) :
  forallb is_client_query
    (map (fun v => EvClientQuery InsertVariant (variant_params pid v)) vs)
  = true.
Proof. by induction vs. Qed.


Lemma fault_or_pass (f : list (option exn)) :
  (exists e rest, f = Some e :: rest) \/ passes f.
Proof. destruct f as [|[e|] rest]; cbn; eauto. Qed.

Lemma pg_client_query_pass (q : sql) (ps : list value) (d : Pg) :
  passes (faults d) ->
  pg_client_query q ps d = pg_run q ps (pg_with_faults d (tail (faults d))).
Proof.
  destruct d as [sel ce pt vt tx ni f]. unfold pg_client_query. cbn.
  by destruct f as [|[e|] rest].
Qed.

Lemma first_fault_tail (f : list (option exn)) (m : nat) :
  passes f ->
  first_fault f (S m)
  = match first_fault (tail f) m with
    | Some (k, e, r) => Some (S k, e, r)
    | None => None
    end.
Proof.
  destruct f as [|[e|] rest]; cbn [passes tail]; [|done|done].
  intros _. by rewrite !first_fault_nil.
Qed.

Lemma drop_S_tail {A} (l : list A) (m : nat) : drop (S m) l = drop m (tail l).
Proof. destruct l; cbn; [by rewrite drop_nil|done]. Qed.

Lemma tail_drop {A} (l : list A) (m : nat) : tail (drop m l) = drop m (tail l).
Proof.
  revert l. induction m as [|m IH]; intros l; [by rewrite !drop_0|].
  destruct l as [|a l]; [done|]. cbn [drop tail].
  by rewrite IH, drop_S_tail.
Qed.

Lemma transaction_run (input : CreateProductInput.t) (w : World C) :
  txn (db w) = None ->
  let n := length (variants_of input) in
  let new_product := product_row (next_id (db w)) (product_params input) in
  let r := createProduct_transaction input w in
  productData r.2 = productData w /\
  reviewData r.2 = reviewData w /\
  variantData r.2 = variantData w /\
  match first_fault (faults (db w)) (S (S (S n))) with
  | Some (k, e, rest) =>
      r.1 = Err e /\
      faults (db r.2) = rest /\
      committed_nothing (db w) (db r.2) /\
      cache r.2 = cache w /\
      exists evs, trace r.2 = trace w ++ evs /\
                  forallb is_client_query evs = true
  | None =>
      committed_whole input (db w) (db r.2) /\
      txn (db r.2) = None /\
      faults (db r.2) = drop (S (S (S n))) (faults (db w)) /\
      trace r.2
        = trace w ++ transaction_calls input (getProp new_product "id")
          ++ [EvCacheDel ["products:*"]] /\
      cache r.2 = (cache_del ["products:*"] (cache w)).2 /\
      r.1 = match (cache_del ["products:*"] (cache w)).1 with
            | Ok _ => Ok (VObj new_product)
            | Err e => Err e
            end
  end.
Proof.
  intros Htxn n new_product r. subst r.
  destruct (createProduct_transaction input w) as [r w'] eqn:Hrun.
  cbn [fst snd].
  unfold createProduct_transaction, bind in Hrun.
  (* BEGIN *)
  unfold client_query at 1 in Hrun. cbn [emit db] in Hrun.
  destruct (fault_or_pass (faults (db w))) as [(e & rest & Hf)|Hp].
  { unfold pg_client_query in Hrun. rewrite Hf in Hrun. cbn in Hrun.
    injection Hrun as <- <-. rewrite Hf. cbn.
    repeat split; try done. eexists. split; [reflexivity|done]. }
  rewrite (pg_client_query_pass _ _ _ Hp) in Hrun.
  rewrite (first_fault_tail _ _ Hp), !drop_S_tail.
  set (f1 := tail (faults (db w))) in *.
  unfold pg_run in Hrun. cbn [txn pg_with_faults] in Hrun.
  rewrite Htxn in Hrun.
  (* INSERT product *)
  unfold client_query at 1 in Hrun. cbn [emit db with_db] in Hrun.
  destruct (fault_or_pass f1) as [(e & rest & Hf1)|Hp1].
  { unfold pg_client_query in Hrun.
    cbn [faults pg_with_txn pg_with_faults] in Hrun.
    rewrite Hf1 in Hrun. cbn in Hrun.
    injection Hrun as <- <-. rewrite Hf1. cbn.
    repeat split; try done.
    eexists. split; [by rewrite <- app_assoc|done]. }
  rewrite pg_client_query_pass in Hrun by done.
  rewrite (first_fault_tail _ _ Hp1).
  cbn [faults pg_with_txn pg_with_faults] in Hrun.
  set (f2 := tail f1) in *.
  unfold pg_run in Hrun.
  cbn [txn pg_with_faults pg_with_txn pg_with_next_id next_id head] in Hrun.
  fold new_product in Hrun.
  (* the variants *)
  rewrite insert_variants_loop in Hrun.
  match type of Hrun with
  | context [variant_loop _ _ ?w2] =>
      pose proof (variant_loop_run new_product (variants_of input) w2
                    ([] ++ [new_product]) [] eq_refl) as Hloop;
      destruct (variant_loop new_product (variants_of input) w2)
        as [rl w3] eqn:Hl
  end.
  cbn zeta in Hloop. cbn [fst snd] in Hloop.
  destruct Hloop as ((Hc & Hpd & Hrd & Hvd) & (Hpt & Hvt) & Hloop).
  cbn [faults db with_db pg_with_txn pg_with_next_id pg_with_faults] in Hloop.
  fold n in Hloop. fold f2 in Hloop.
  cbn in Hc, Hpd, Hrd, Hvd, Hpt, Hvt.
  rewrite (first_fault_succ f2 n).
  destruct (first_fault f2 n) as [[[j e] rest]|].
  { destruct Hloop as (-> & Hfl & _ & evs & Htr & Hevs).
    injection Hrun as <- <-.
    repeat split; try done.
    eexists. split; [rewrite Htr; cbn; by rewrite <- !app_assoc|done]. }
  destruct Hloop as (-> & Hfl & Ht & Htr).
  cbn in Htr.
  (* COMMIT *)
  unfold client_query at 1 in Hrun. cbn [emit db with_db] in Hrun.
  destruct (fault_or_pass (drop n f2)) as [(e & rest & Hf3)|Hp3].
  { unfold pg_client_query in Hrun. rewrite Hfl, Hf3 in Hrun. cbn in Hrun.
    injection Hrun as <- <-. rewrite Hf3. cbn.
    repeat split; try done.
    eexists. split; [rewrite Htr; by rewrite <- !app_assoc|].
    rewrite !forallb_app. cbn. rewrite andb_true_r.
    apply variant_calls_are_queries. }
  rewrite pg_client_query_pass in Hrun by (by rewrite Hfl).
  assert (Hnone : match drop n f2 with
                  | Some e :: rest => Some (n, e, rest)
                  | _ => None
                  end = None).
  { by destruct (drop n f2) as [|[e|] rest]. }
  rewrite Hnone. clear Hnone.
  unfold pg_run in Hrun. cbn [txn pg_with_faults] in Hrun. rewrite Ht in Hrun.
  (* invalidation *)
  unfold redisService_del in Hrun. cbn [emit cache with_db with_cache] in Hrun.
  rewrite Hc in Hrun.
  destruct (cache_del ["products:*"] (cache w)) as [[u|e] c] eqn:Hdel;
    injection Hrun as <- <-; cbn.
  all: rewrite Hpt, Hvt, Hfl, Htr.
  all: repeat split; try done.
  all: try (by rewrite tail_drop).
  all: unfold transaction_calls; cbn; by rewrite <- !app_assoc.
Qed.

End MutationProperties.

Section CreateProductProperties.
Context {C : Type} `{CacheClient C}.
Variable validate : CreateProductInput.t -> option exn.


Lemma createProduct_run (input : CreateProductInput.t) (w : World C) :
  validate input = None ->
  connect_error (db w) = None ->
  createProduct validate input w
  = match createProduct_transaction input (emit EvConnect w) with
    | (Ok v, w1) => (Ok v, emit EvRelease w1)
    | (Err e, w1) => after_rollback e w1
    end.
Proof.
  intros Hval Hconn.
  unfold createProduct, try_catch, try_finally, bind, pool_connect,
    client_release, logger_error, throw, after_rollback, client_query.
  rewrite Hval. cbn [emit db]. rewrite Hconn.
  destruct (createProduct_transaction input (emit EvConnect w))
    as [[v|e] w1]; [done|].
  by destruct (pg_client_query Rollback [] (db w1)) as [[?|?] ?].
Qed.

Lemma createProduct_rejected (input : CreateProductInput.t) (w : World C) :
  validate input <> None \/ connect_error (db w) <> None ->
  db (createProduct validate input w).2 = db w /\
  cache (createProduct validate input w).2 = cache w /\
  productData (createProduct validate input w).2 = productData w /\
  is_Some (match (createProduct validate input w).1 with
           | Err e => Some e
           | Ok _ => None
           end).
Proof.
  intros Hrej.
  unfold createProduct, try_catch, try_finally, bind, pool_connect,
    client_release, logger_error, throw.
  destruct (validate input) as [e|]; [by cbn|].
  cbn [emit db]. destruct (connect_error (db w)) as [e|]; [by cbn|].
  by destruct Hrej.
Qed.

Lemma rollback_committed (d : Pg) :
  committed_nothing d (pg_client_query Rollback [] d).2.
Proof.
  unfold pg_client_query.
  by destruct (faults d) as [|[e|] rest].
Qed.

Lemma after_rollback_run (e : exn) (w1 : World C) :
  let r := after_rollback e w1 in
  committed_nothing (db w1) (db r.2) /\
  cache r.2 = cache w1 /\
  productData r.2 = productData w1 /\
  trace r.2
    = trace w1 ++ [EvClientQuery Rollback []; EvRelease;
                   EvLog "Fehler beim Erstellen des Produkts"] /\
  r.1 = Err (match faults (db w1) with Some e' :: _ => e' | _ => e end).
Proof.
  cbn zeta. unfold after_rollback.
  pose proof (rollback_committed (db w1)) as Hcomm.
  unfold pg_client_query in *.
  destruct (faults (db w1)) as [|[e'|] rest]; cbn in *;
    by rewrite <- !app_assoc.
Qed.

(** C2 (as the code has it). When a statement of the transaction throws,
    ROLLBACK is sent, the cache is never asked to delete anything, and the
    caller gets that statement's error, unless ROLLBACK throws as well: then
    the caller gets the error of ROLLBACK. *)
Theorem failed_transaction_rolls_back (input : CreateProductInput.t)
    (w : World C) (k : nat) (e : exn) (rest : list (option exn)) :
  validate input = None ->
  connect_error (db w) = None ->
  txn (db w) = None ->
  first_fault (faults (db w)) (3 + length (variants_of input))
    = Some (k, e, rest) ->
  let r := createProduct validate input w in
  EvClientQuery Rollback [] ∈ events_since w r.2 /\
  forallb (fun ev => negb (is_cache_del ev)) (events_since w r.2) = true /\
  cache r.2 = cache w /\
  r.1 = Err (match rest with Some e' :: _ => e' | _ => e end).
Proof.
  intros Hval Hconn Htxn Hff r. subst r.
  rewrite (createProduct_run input w Hval Hconn).
  pose proof (transaction_run input (emit EvConnect w) Htxn) as Hrun.
  cbn zeta in Hrun. cbn [db emit] in Hrun.
  change (3 + length (variants_of input))%nat
    with (S (S (S (length (variants_of input))))) in Hff.
  rewrite Hff in Hrun.
  destruct (createProduct_transaction input (emit EvConnect w)) as [r w1].
  cbn [fst snd] in Hrun.
  destruct Hrun as (_ & _ & _ & -> & Hfl & _ & Hc & evs & Htr & Hevs).
  pose proof (after_rollback_run e w1) as (_ & Hc' & _ & Htr' & Hr).
  rewrite Hfl in Hr. rewrite Hr, Hc', Hc.
  assert (Hev : events_since w (after_rollback e w1).2
                = [EvConnect] ++ evs
                  ++ [EvClientQuery Rollback []; EvRelease;
                      EvLog "Fehler beim Erstellen des Produkts"]).
  { apply events_since_app. rewrite Htr', Htr. cbn.
    by rewrite <- !app_assoc. }
  rewrite Hev. split.
  { rewrite !elem_of_app. right. right. apply elem_of_cons. by left. }
  split; [|done].
  rewrite !forallb_app. cbn. rewrite andb_true_r.
  clear -Hevs. induction evs as [|ev evs IH]; [done|].
  cbn in *. apply andb_prop in Hevs as [Hq Hevs].
  rewrite (IH Hevs). by destruct ev.
Qed.



Lemma committed_whole_then_nothing (input : CreateProductInput.t)
    (d d1 d2 : Pg) :
  committed_whole input d d1 -> committed_nothing d1 d2 ->
  committed_whole input d d2.
Proof. intros [? ?] [? ?]. split; congruence. Qed.

Lemma committed_nothing_trans (d d1 d2 : Pg) :
  committed_nothing d d1 -> committed_nothing d1 d2 -> committed_nothing d d2.
Proof. intros [? ?] [? ?]. split; congruence. Qed.


End CreateProductProperties.

(** ** The side table of raw rows *)

Section SideTable.
Context {C : Type} `{CacheClient C}.

Local Abbreviation keeps m := (keeps_productData (C := C) m).

Lemma keeps_ret {A} (a : A) : keeps (ret a).
Proof. done. Qed.

Lemma keeps_throw {A} (e : exn) : keeps (throw (A := A) e).
Proof. done. Qed.

Lemma keeps_lift_res {A} (r : res A) : keeps (lift_res r).
Proof. done. Qed.

Lemma keeps_bind {A B} (m : M C A) (k : A -> M C B) :
  keeps m -> (forall a, keeps (k a)) ->
  keeps (bind m k).
Proof.
  intros Hm Hk w. unfold bind. specialize (Hm w).
  destruct (m w) as [[a|e] w1]; [|done].
  cbn in Hm. by rewrite Hk.
Qed.

Lemma keeps_try_catch {A} (m : M C A) (h : exn -> M C A) :
  keeps m -> (forall e, keeps (h e)) ->
  keeps (try_catch m h).
Proof.
  intros Hm Hh w. unfold try_catch. specialize (Hm w).
  destruct (m w) as [[a|e] w1]; [done|].
  cbn in Hm. by rewrite Hh.
Qed.

Lemma keeps_try_finally {A} (m : M C A) (fin : M C ()) :
  keeps m -> keeps fin ->
  keeps (try_finally m fin).
Proof.
  intros Hm Hf w. unfold try_finally. specialize (Hm w).
  destruct (m w) as [r w1]. specialize (Hf w1).
  destruct (fin w1) as [[u|e] w2]; cbn in *; congruence.
Qed.

Lemma keeps_for_of {A} (xs : list A) (f : A -> M C ()) :
  (forall x, keeps (f x)) -> keeps (for_of xs f).
Proof.
  intros Hf. induction xs as [|x xs IH]; [done|].
  cbn [for_of]. by apply keeps_bind.
Qed.

Lemma keeps_redisService_get (key : string) :
  keeps (redisService_get key).
Proof.
  intros w. unfold redisService_get. cbn.
  by destruct (cache_get key (cache w)).
Qed.

Lemma keeps_redisService_set (key : string) (v : value) (ttl : option Z) :
  keeps (redisService_set key v ttl).
Proof.
  intros w. unfold redisService_set. cbn.
  by destruct (cache_set key v ttl (cache w)).
Qed.

Lemma keeps_redisService_del (keys : list string) :
  keeps (redisService_del keys).
Proof.
  intros w. unfold redisService_del. cbn.
  by destruct (cache_del keys (cache w)).
Qed.

Lemma keeps_pool_query (q : sql) (ps : list value) :
  keeps (pool_query q ps).
Proof. done. Qed.

Lemma keeps_pool_connect : keeps pool_connect.
Proof.
  intros w. unfold pool_connect. cbn. by destruct (connect_error (db w)).
Qed.

Lemma keeps_client_query (q : sql) (ps : list value) :
  keeps (client_query q ps).
Proof.
  intros w. unfold client_query. cbn.
  by destruct (pg_client_query q ps (db w)).
Qed.

Lemma keeps_client_release : keeps client_release.
Proof. done. Qed.

Lemma keeps_logger_error (msg : string) : keeps (logger_error msg).
Proof. done. Qed.

Lemma keeps_remember_reviews (k : value) (rows : list row) :
  keeps (remember_reviews k rows).
Proof. done. Qed.

Lemma keeps_remember_variants (k : value) (rows : list row) :
  keeps (remember_variants k rows).
Proof. done. Qed.

Create HintDb frame discriminated.
Hint Resolve keeps_ret keeps_throw keeps_lift_res keeps_redisService_get
  keeps_redisService_set keeps_redisService_del keeps_pool_query
  keeps_pool_connect keeps_client_query keeps_client_release
  keeps_logger_error keeps_remember_reviews keeps_remember_variants
  : frame.

Ltac solve_keeps :=
  repeat first
    [ progress intros
    | apply keeps_bind
    | apply keeps_try_catch
    | apply keeps_try_finally
    | apply keeps_for_of
    | solve [auto with frame]
    | match goal with
      | |- keeps (if ?b then _ else _) => destruct b
      | |- keeps (match ?x with _ => _ end) => destruct x
      end ].

Lemma keeps_product (id : string) : keeps (product id).
Proof. unfold product. solve_keeps. Qed.

Lemma keeps_reviews (p : row) : keeps (reviews p).
Proof. unfold reviews. solve_keeps. Qed.

Lemma keeps_variants (p : row) : keeps (variants p).
Proof. unfold variants. solve_keeps. Qed.

Lemma keeps_category (p : row) : keeps (category p).
Proof.
  intros w. unfold category.
  destruct (Map_get (productData w) (getProp p "id")) as [raw|]; [|done].
  revert w. change (keeps
    (try_catch
       (cachedCategory <- redisService_get (category_cacheKey raw) ;;
        if truthy cachedCategory then ret cachedCategory
        else
          rows <- pool_query SelectCategoryById
                    [getProp raw "category_id"] ;;
          category <- lift_res (mapCategoryDBToCategory (head rows)) ;;
          redisService_set (category_cacheKey raw) (VObj category)
                           (Some 3600) ;;;
          ret (VObj category))
       (fun error =>
          logger_error "Fehler beim Abrufen der Kategorie" ;;; throw error))).
  solve_keeps.
Qed.

Lemma keeps_createProduct (validate : CreateProductInput.t -> option exn)
    (input : CreateProductInput.t) :
  keeps (createProduct validate input).
Proof.
  unfold createProduct, createProduct_transaction, insert_variants. solve_keeps.
Qed.

Lemma products_populates_on_miss (limit offset : Z) (w : World C) :
  productData (products limit offset w).2 <> productData w ->
  exists v c rows,
    cache_get (products_cacheKey limit offset) (cache w) = (Ok v, c) /\
    truthy v = false /\
    select (db w) SelectProductsPage [VNum limit; VNum offset] = Ok rows.
Proof.
  unfold products, try_catch, bind, redisService_get, redisService_set,
    pool_query, remember_rows, logger_error, throw, ret.
  cbn.
  destruct (cache_get _ (cache w)) as [[v|e] c] eqn:Hget; cbn; [|done].
  destruct (truthy v) eqn:Hv; cbn; [done|].
  destruct (select _ _ _) as [rows|e] eqn:Hsel; cbn; [|done].
  intros _. by exists v, c, rows.
Qed.

Lemma products_hit_keeps (limit offset : Z) (w : World C) (v : value) (c : C) :
  cache_get (products_cacheKey limit offset) (cache w) = (Ok v, c) ->
  truthy v = true ->
  productData (products limit offset w).2 = productData w.
Proof.
  intros Hget Hv.
  unfold products, try_catch, bind, redisService_get. cbn.
  rewrite Hget. cbn. by rewrite Hv.
Qed.


Lemma category_without_data (p : row) (w : World C) :
  Map_get (productData w) (getProp p "id") = None ->
  category p w = (Err not_found, w).
Proof. intros Hnone. unfold category. by rewrite Hnone. Qed.

(** C9. The category resolver answers only for a product whose raw row the
    same instance holds in [productData]; without it the resolver throws
    'Product data not found' and touches nothing.  Of all operations only the
    list query changes that table, and only on its cache-miss branch.  So a
    product that came from [product(id)], from a list read served by the
    cache, or from another instance (whose table is empty) makes the resolver
    throw. *)
Theorem category_needs_side_table (p : row) (w : World C) :
  (forall v, (category p w).1 = Ok v ->
     is_Some (Map_get (productData w) (getProp p "id"))) /\
  (Map_get (productData w) (getProp p "id") = None ->
     category p w = (Err not_found, w)) /\
  (forall id, productData (product id w).2 = productData w) /\
  (forall q, productData (category q w).2 = productData w /\
             productData (reviews q w).2 = productData w /\
             productData (variants q w).2 = productData w) /\
  (forall validate input,
     productData (createProduct validate input w).2 = productData w) /\
  (forall limit offset,
     productData (products limit offset w).2 <> productData w ->
     exists v c rows,
       cache_get (products_cacheKey limit offset) (cache w) = (Ok v, c) /\
       truthy v = false /\
       select (db w) SelectProductsPage [VNum limit; VNum offset] = Ok rows) /\
  (Map_get (productData w) (getProp p "id") = None ->
     (forall id, (category p (product id w).2).1 = Err not_found) /\
     (forall limit offset v c,
        cache_get (products_cacheKey limit offset) (cache w) = (Ok v, c) ->
        truthy v = true ->
        (category p (products limit offset w).2).1 = Err not_found)) /\
  (forall w' : World C,
     productData w' = [] -> (category p w').1 = Err not_found).
Proof.
  split.
  { intros v Hv.
    destruct (Map_get (productData w) (getProp p "id")) as [raw|] eqn:Hraw;
      [done|].
    by rewrite (category_without_data p w Hraw) in Hv. }
  split; [apply category_without_data|].
  split; [intros id; apply keeps_product|].
  split.
  { intros q. split; [apply keeps_category|].
    split; [apply keeps_reviews|apply keeps_variants]. }
  split; [intros validate input; apply keeps_createProduct|].
  split; [intros limit offset; apply products_populates_on_miss|].
  split.
  { intros Hnone. split.
    - intros id. rewrite category_without_data; [done|].
      by rewrite keeps_product.
    - intros limit offset v c Hget Hv.
      rewrite category_without_data; [done|].
      by rewrite (products_hit_keeps limit offset w v c Hget Hv). }
  intros w' Hempty. rewrite category_without_data; [done|].
  by rewrite Hempty.
Qed.

End SideTable.

(** ** The cache client of the repository *)

Section RedisServiceProperties.
Variable JSON_stringify : value -> option string.
Variable JSON_parse : string -> res value.

(** What the closures handed to [fire] would do if they were run: a text
    stored under a key is the text read back. *)
Lemma closure_round_trip (key text : string) (ex : option Z)
    (r : RedisService.Redis) :
  RedisService.reachable r = true ->
  (RedisService.client_get key (RedisService.client_set key text ex r).2).1
  = Ok (VStr text).
Proof.
  destruct r as [m b]. cbn. intros ->.
  unfold RedisService.client_get, RedisService.client_set. cbn.
  by rewrite lookup_insert_eq.
Qed.

(** [fire] never runs a closure: unless the circuit is open already, the
    action looks the closure up as a property of the client and calls
    undefined.  The server is not reached and the circuit is open
    afterwards. *)
Lemma fire_closure (body : RedisService.Redis -> res value * RedisService.Redis)
    (s : RedisService.t) :
  let r := RedisService.fire (RedisService.Closure body) [] s in
  (exists e, r.1 = Err e) /\
  RedisService.client r.2 = RedisService.client s /\
  RedisService.circuit r.2 = RedisService.Open.
Proof.
  unfold RedisService.fire. destruct s as [c b [| |] l]; cbn; eauto.
Qed.

(** C10. With the server answering, the connection up and the circuit closed,
    [set] throws a TypeError, stores nothing and leaves the circuit open.
    [get] of the same key then throws 'Breaker is open' instead of returning
    the value.  Once the reset timer has made the circuit half-open, and
    likewise when no call went before it, [get] throws the TypeError of
    [set]. *)
Theorem RedisService_set_get_throw (key : string) (v : value)
    (ttl : option Z) (entries : gmap string (string * option Z)) :
  let s := Concrete.healthy entries in
  let thrown := TypeError "this.client[command] is not a function" in
  let after := (RedisService.set JSON_stringify key v ttl s).2 in
  (RedisService.set JSON_stringify key v ttl s).1 = Err thrown /\
  RedisService.kv (RedisService.client after) = entries /\
  RedisService.circuit after = RedisService.Open /\
  (RedisService.get JSON_parse key after).1 = Err (Error "Breaker is open") /\
  (RedisService.get JSON_parse key (RedisService.resetTimeout after)).1
  = Err thrown /\
  (RedisService.get JSON_parse key s).1 = Err thrown.
Proof. by destruct ttl. Qed.

(** Whatever its state, [get] returns no value. *)
Lemma RedisService_get_throws (key : string) (s : RedisService.t) :
  exists e, (RedisService.get JSON_parse key s).1 = Err e.
Proof.
  unfold RedisService.get, RedisService.ensureConnection,
    RedisService.client_ping.
  destruct s as [[m r] b c l]; cbn.
  destruct b; cbn; [|destruct r; cbn]; destruct c; cbn; eauto.
Qed.

End RedisServiceProperties.

(** ** What the mutation invalidates *)

Lemma wildcard_is_no_page_key (limit offset : Z) :
  products_cacheKey limit offset <> "products:*".
Proof.
  unfold products_cacheKey. intros Heq.
  apply (inj (String.app "products:")) in Heq.
  destruct (toString (VNum limit)) as [|a s]; [done|].
  injection Heq as _ Heq.
  by destruct s.
Qed.

Lemma createProduct_invalidates_no_page
    (validate : CreateProductInput.t -> option exn)
    (input : CreateProductInput.t) (w : World MemoryCache.t)
    (limit offset : Z) :
  txn (db w) = None ->
  cache (createProduct validate input w).2 !! products_cacheKey limit offset
  = cache w !! products_cacheKey limit offset.
Proof.
  intros Htxn.
  destruct (validate input) as [ev|] eqn:Hval.
  { destruct (createProduct_rejected validate input w) as (_ & -> & _);
      [left; by rewrite Hval|done]. }
  destruct (connect_error (db w)) as [ec|] eqn:Hconn.
  { destruct (createProduct_rejected validate input w) as (_ & -> & _);
      [right; by rewrite Hconn|done]. }
  rewrite (createProduct_run validate input w Hval Hconn).
  pose proof (transaction_run input (emit EvConnect w) Htxn) as Hrun.
  cbn zeta in Hrun. cbn [db emit cache] in Hrun.
  destruct (createProduct_transaction input (emit EvConnect w)) as [r w1].
  cbn [fst snd] in Hrun.
  assert (Hcache : cache w1 !! products_cacheKey limit offset
                   = cache w !! products_cacheKey limit offset).
  { destruct (first_fault _ _) as [[[k e] rest]|].
    - destruct Hrun as (_ & _ & _ & _ & _ & _ & -> & _). done.
    - destruct Hrun as (_ & _ & _ & _ & _ & _ & _ & -> & _). cbn.
      apply lookup_delete_ne. intros Heq.
      by apply (wildcard_is_no_page_key limit offset). }
  destruct r as [v|e]; [done|].
  pose proof (after_rollback_run e w1) as (_ & -> & _). done.
Qed.

(** ** The properties at concrete worlds *)

(** The scenarios of the resolver's test-suite.  A list read on an empty
    cache returns one product with id 1 and calls [set]. *)
Example products_on_empty_cache :
  let w := Concrete.world Concrete.cold (Concrete.store []) in
  (exists p, (products 10 0 w).1 = Ok (VArr [VObj p])
             /\ getProp p "id" = VStr "1") /\
  existsb is_cache_set (events_since w (products 10 0 w).2) = true.
Proof.
  split; [|vm_compute; reflexivity].
  eexists. split; vm_compute; reflexivity.
Qed.

(** A product without variants is created with three statements, BEGIN, the
    INSERT and COMMIT, and [del] is called with [products:*]. *)
Example createProduct_sends_three_statements :
  let w := Concrete.world Concrete.cold (Concrete.store []) in
  let r := createProduct Concrete.accept_all Concrete.input_plain w in
  getProp (product_row 1 (product_params Concrete.input_plain)) "id"
    = VStr "1" /\
  r.1 = Ok (VObj (product_row 1 (product_params Concrete.input_plain))) /\
  events_since w r.2
    = [EvConnect; EvClientQuery Begin [];
       EvClientQuery InsertProduct (product_params Concrete.input_plain);
       EvClientQuery Commit []; EvCacheDel ["products:*"]; EvRelease].
Proof. vm_compute. done. Qed.

(** With the repository's own cache client, healthy, the mutation commits
    the product and its variants and then throws: [del] rejects after
    COMMIT. *)
Example createProduct_with_RedisService :
  let H := RedisService.cacheClient Concrete.stringify_scalar
             Concrete.parse_scalar in
  let w := Concrete.world (Concrete.healthy ∅) (Concrete.store []) in
  let r := createProduct (H := H) Concrete.accept_all Concrete.input w in
  r.1 = Err (TypeError "this.client[command] is not a function") /\
  length (products_tbl (db r.2)) = 1%nat /\
  length (variants_tbl (db r.2)) = 2%nat.
Proof. vm_compute. done. Qed.

(** The cached page of the list is served without a store call. *)
Lemma cache_hit_short_circuit_witness :
  let w := Concrete.world Concrete.warm (Concrete.store []) in
  run_read (ReadProducts 10 0) w
    = (Ok Concrete.page, with_cache (emit (EvCacheGet "products:10:0") w)
                                   Concrete.warm) /\
  events_since w (run_read (ReadProducts 10 0) w).2
    = [EvCacheGet "products:10:0"] /\
  db (run_read (ReadProducts 10 0) w).2 = db w.
Proof.
  apply (cache_hit_short_circuit (ReadProducts 10 0)
           (Concrete.world Concrete.warm (Concrete.store []))
           "products:10:0" Concrete.page Concrete.warm);
    vm_compute; reflexivity.
Defined.

(** With the cache server down the list read rethrows the connection
    error. *)
Lemma cache_failure_is_rethrown_witness :
  let w := Concrete.world Concrete.unreachable (Concrete.store []) in
  let H := RedisService.cacheClient Concrete.stringify_scalar
             Concrete.parse_scalar in
  run_read (H := H) (ReadProducts 10 0) w
    = (Err RedisService.connection_error,
       emit (EvLog "Fehler beim Abrufen der Produkte")
         (with_cache (emit (EvCacheGet "products:10:0") w)
            (RedisService.logged
               (RedisService.logged Concrete.unreachable
                  "Redis Verbindungsfehler")
               "Fehler beim Abrufen des Redis-Werts"))) /\
  events_since w (run_read (H := H) (ReadProducts 10 0) w).2
    = [EvCacheGet "products:10:0"; EvLog "Fehler beim Abrufen der Produkte"].
Proof.
  apply (cache_failure_is_rethrown
           (H := RedisService.cacheClient Concrete.stringify_scalar
                   Concrete.parse_scalar)
           (ReadProducts 10 0)
           (Concrete.world Concrete.unreachable (Concrete.store []))
           "products:10:0" RedisService.connection_error);
    vm_compute; reflexivity.
Defined.

(** C3, refuted as stated. The cache server does not answer; the store would
    return the product row; the list read throws the cache client's error
    without asking the store. *)
Lemma cache_outage_fails_read :
  let w := Concrete.world Concrete.unreachable (Concrete.store []) in
  let H := RedisService.cacheClient Concrete.stringify_scalar
             Concrete.parse_scalar in
  select (db w) SelectProductsPage [VNum 10; VNum 0] = Ok [Concrete.row1] /\
  (products (H := H) 10 0 w).1 = Err RedisService.connection_error /\
  forallb (fun ev => negb (is_store_call ev))
          (events_since w (products (H := H) 10 0 w).2) = true.
Proof. vm_compute. done. Qed.

(** A missing product, looked up twice on an empty cache. *)
Lemma product_not_found_is_not_cached_witness :
  let w := Concrete.world Concrete.cold (Concrete.store []) in
  let calls := [EvCacheGet "product:missing";
                EvPoolQuery SelectProductById [VStr "missing"]] in
  (product "missing" w).1 = Ok VNull /\
  events_since w (product "missing" w).2 = calls /\
  cache (product "missing" w).2 = Concrete.cold /\
  (forall v2 c2,
     cache_get "product:missing" Concrete.cold = (Ok v2, c2) ->
     truthy v2 = false ->
     (product "missing" (product "missing" w).2).1 = Ok VNull /\
     events_since (product "missing" w).2
       (product "missing" (product "missing" w).2).2 = calls).
Proof.
  apply (product_not_found_is_not_cached "missing"
           (Concrete.world Concrete.cold (Concrete.store []))
           VNull Concrete.cold);
    vm_compute; reflexivity.
Defined.

(** The product INSERT throws; ROLLBACK runs; the cached page is left
    alone and the caller gets the error of the INSERT. *)
Lemma failed_transaction_rolls_back_witness :
  let w := Concrete.world Concrete.warm
             (Concrete.store [None; Some Concrete.insert_error]) in
  let r := createProduct Concrete.accept_all Concrete.input w in
  EvClientQuery Rollback [] ∈ events_since w r.2 /\
  forallb (fun ev => negb (is_cache_del ev)) (events_since w r.2) = true /\
  cache r.2 = Concrete.warm /\
  r.1 = Err Concrete.insert_error.
Proof.
  apply (failed_transaction_rolls_back Concrete.accept_all Concrete.input
           (Concrete.world Concrete.warm
              (Concrete.store [None; Some Concrete.insert_error]))
           1 Concrete.insert_error []);
    vm_compute; reflexivity.
Defined.

(** C2, refuted as stated. The product INSERT throws and then ROLLBACK throws
    too: the caller gets the error of ROLLBACK, not the error of the
    INSERT. *)
Lemma rollback_failure_masks_error :
  let plan := [None; Some Concrete.insert_error;
               Some Concrete.rollback_error] in
  let w := Concrete.world Concrete.warm (Concrete.store plan) in
  first_fault plan (3 + length (variants_of Concrete.input))
    = Some (1%nat, Concrete.insert_error, [Some Concrete.rollback_error]) /\
  (createProduct Concrete.accept_all Concrete.input w).1
    = Err Concrete.rollback_error /\
  Concrete.rollback_error <> Concrete.insert_error.
Proof. vm_compute. done. Qed.


(** C4. A list read on an empty cache finds the test-suite's row.  The caller
    gets the mapped product, the cache is given the raw row, and the next
    read of the same page returns what the cache holds: a different
    payload. *)
Theorem products_caches_raw_rows :
  let w := Concrete.world Concrete.cold (Concrete.store []) in
  let first := products 10 0 w in
  let second := products 10 0 first.2 in
  first.1 = Ok (VArr [VObj (mapProductDBToProduct Concrete.row1)]) /\
  cache first.2 !! "products:10:0"
    = Some (VArr [VObj Concrete.row1], Some 300) /\
  second.1 = Ok (VArr [VObj Concrete.row1]) /\
  second.1 <> first.1.
Proof. vm_compute. done. Qed.

(** C1. A page of the product list is cached; a product is created and the
    call returns it; the page is still in the cache afterwards, because the
    one key the mutation deletes is the literal text [products:*]. *)
Theorem createProduct_keeps_cached_page :
  let w := Concrete.world Concrete.warm (Concrete.store []) in
  let r := createProduct Concrete.accept_all Concrete.input w in
  r.1 = Ok (VObj (product_row 1 (product_params Concrete.input))) /\
  filter (fun ev => is_cache_del ev = true) (events_since w r.2)
    = [EvCacheDel ["products:*"]] /\
  cache r.2 !! products_cacheKey 10 0 = Some (Concrete.page, Some 300).
Proof. vm_compute. done. Qed.

(** * Further properties *)

(** ** The read paths *)

Section MoreReadProperties.
Context {C : Type} `{CacheClient C}.

Ltac read_step :=
  match goal with
  | |- context [cache_get ?k ?c] =>
      destruct (cache_get k c) as [[?|?] ?] eqn:?
  | |- context [cache_set ?k ?v ?t ?c] =>
      destruct (cache_set k v t c) as [[?|?] ?] eqn:?
  | |- context [select ?d ?q ?ps] =>
      destruct (select d q ps) as [?|?] eqn:?
  | |- context [head ?l] => destruct l as [|? ?]
  | |- context [map_throwing ?f ?l] =>
      destruct (map_throwing f l) as [?|?] eqn:?
  | |- context [if truthy ?v then _ else _] =>
      destruct (truthy v) eqn:?
  | |- context [Map_get ?m ?k] =>
      destruct (Map_get m k) as [?|] eqn:?
  end.

Ltac read_cases :=
  unfold run_read, products, product, category, reviews, variants,
    try_catch, bind, redisService_get, redisService_set, pool_query,
    logger_error, throw, ret, lift_res, remember_rows, remember_reviews,
    remember_variants;
  repeat (cbn -[toString pretty String.append events_since fold_left Map_set
                mapProductDBToProduct mapVariantDBToVariant map_throwing map
                count];
          try read_step).

Ltac read_events :=
  first [ rewrite events_since_refl
        | erewrite events_since_app
            by (cbn; rewrite <- ?app_assoc; cbn; reflexivity) ].

(** X1. A read that misses the cache and whose store query throws gives the
    caller that error unchanged, logs once and writes nothing to the
    cache. *)
Theorem store_failure_is_rethrown (op : read_op) (w : World C)
    (key : string) (v : value) (c : C) (q : sql) (ps : list value)
    (e : exn) :
  read_key op w = Some key ->
  cache_get key (cache w) = (Ok v, c) ->
  truthy v = false ->
  read_query op w = Some (q, ps) ->
  select (db w) q ps = Err e ->
  run_read op w
  = (Err e, emit (EvLog (read_log op))
              (emit (EvPoolQuery q ps)
                 (with_cache (emit (EvCacheGet key) w) c))).
Proof.
  intros Hkey Hget Hv Hq Hsel.
  destruct op as [limit offset|id|p|p|p]; cbn in Hkey, Hq.
  5: { injection Hkey as <-. injection Hq as <- <-.
       unfold run_read, variants, try_catch, bind, redisService_get,
         pool_query. cbn. rewrite Hget. cbn. rewrite Hv. cbn.
       by rewrite Hsel. }
  4: { injection Hkey as <-. injection Hq as <- <-.
       unfold run_read, reviews, try_catch, bind, redisService_get,
         pool_query. cbn. rewrite Hget. cbn. rewrite Hv. cbn.
       by rewrite Hsel. }
  3: { unfold run_read, category.
       destruct (Map_get (productData w) (getProp p "id")) as [raw|];
         [|discriminate].
       injection Hkey as <-. injection Hq as <- <-.
       unfold try_catch, bind, redisService_get, pool_query. cbn.
       rewrite Hget. cbn. rewrite Hv. cbn. by rewrite Hsel. }
  2: { injection Hkey as <-. injection Hq as <- <-.
       unfold run_read, product, try_catch, bind, redisService_get,
         pool_query. cbn. rewrite Hget. cbn. rewrite Hv. cbn.
       by rewrite Hsel. }
  injection Hkey as <-. injection Hq as <- <-.
  unfold run_read, products, try_catch, bind, redisService_get, pool_query.
  cbn. rewrite Hget. cbn. rewrite Hv. cbn. by rewrite Hsel.
Qed.

(** X2. A read that returns a value logs nothing.  A read that fails logs
    exactly once, as the last thing it does; the one exception is the
    category resolver without the raw row of its product, which throws
    'Product data not found' unlogged. *)
Theorem read_failures_are_logged_once (op : read_op) (w : World C) :
  let evs := events_since w (run_read op w).2 in
  match (run_read op w).1 with
  | Ok _ => count is_log evs = 0%nat
  | Err e =>
      (count is_log evs = 1%nat /\ last evs = Some (EvLog (read_log op))) \/
      (read_key op w = None /\ e = not_found /\ evs = [])
  end.
Proof.
  destruct op as [limit offset|id|p|p|p]; read_cases.
  all: read_events.
  all: first [ reflexivity | left; split; reflexivity | right; done ].
Qed.

(** X3. Whatever a read writes to the cache it writes under its own key and
    with the expiry of its kind: 300 s for a page of the list, 3600 s for a
    product or a category, 1800 s for reviews and variants.  No read caches
    without an expiry. *)
Theorem reads_write_with_ttl (op : read_op) (w : World C)
    (key : string) (v : value) (ttl : option Z) :
  EvCacheSet key v ttl ∈ events_since w (run_read op w).2 ->
  read_key op w = Some key /\ ttl = Some (read_ttl op).
Proof.
  destruct op as [limit offset|id|p|p|p]; read_cases.
  all: read_events.
  all: intros Hev;
    repeat (apply elem_of_cons in Hev as [Hev|Hev]; [try discriminate|]);
    try (by apply elem_of_nil in Hev).
  all: by injection Hev as -> -> ->.
Qed.

(** X4. A read asks the cache once, sends at most one query to the store,
    writes at most one cache entry and only after a store query, and never
    makes a call of the mutation: no delete, no pooled connection, no
    statement on one, no release. *)
Theorem read_call_discipline (op : read_op) (w : World C) :
  let evs := events_since w (run_read op w).2 in
  (count is_cache_get evs <= 1)%nat /\
  (count is_store_call evs <= 1)%nat /\
  (count is_cache_set evs <= count is_store_call evs)%nat /\
  count is_mutation_call evs = 0%nat.
Proof.
  destruct op as [limit offset|id|p|p|p]; read_cases.
  all: read_events.
  all: cbn; repeat split; lia.
Qed.

Lemma read_hit_run (op : read_op) (w : World C) (key : string) (v : value)
    (c : C) :
  read_key op w = Some key ->
  cache_get key (cache w) = (Ok v, c) ->
  truthy v = true ->
  run_read op w = (Ok v, with_cache (emit (EvCacheGet key) w) c).
Proof.
  intros Hkey Hget Hv.
  destruct op as [limit offset|id|p|p|p]; cbn in Hkey.
  3: { unfold run_read, category.
       destruct (Map_get (productData w) (getProp p "id")) as [raw|];
         [|discriminate].
       injection Hkey as <-.
       unfold try_catch, bind, redisService_get. cbn.
       rewrite Hget. cbn. by rewrite Hv. }
  all: injection Hkey as <-;
    unfold run_read, products, product, reviews, variants, try_catch, bind,
      redisService_get; cbn; rewrite Hget; cbn; by rewrite Hv.
Qed.

Lemma read_ok_is_cached (op : read_op) (w : World C) (v : value) :
  reads_back C ->
  is_list_read op = false ->
  (run_read op w).1 = Ok v ->
  v <> VNull ->
  exists key c,
    read_key op (run_read op w).2 = Some key /\
    cache_get key (cache (run_read op w).2) = (Ok v, c) /\
    truthy v = true.
Proof.
  intros [Hback Hwritten] Hop.
  destruct op as [limit offset|id|p|p|p]; [discriminate|..]; clear Hop.
  all: read_cases; intros [= <-] Hnull; try done.
  all: repeat match goal with u : () |- _ => destruct u end.
  all: simplify_eq.
  all: eexists _, _; (split; [try reflexivity|split; [|try done]]).
  all: try (eapply Hback; eassumption).
  all: try (eapply Hwritten; eassumption).
  all: try (by rewrite Heqo).
Qed.

(** X5. On a cache client that finds again what was looked up or written, a
    read of a product, a category, the reviews or the variants that returned
    a value other than null returns the same value when repeated, this time
    from the cache alone: its only call is the cache lookup. *)
Theorem read_is_repeatable (op : read_op) (w : World C) (v : value) :
  reads_back C ->
  is_list_read op = false ->
  (run_read op w).1 = Ok v ->
  v <> VNull ->
  let w1 := (run_read op w).2 in
  (run_read op w1).1 = Ok v /\
  exists key, events_since w1 (run_read op w1).2 = [EvCacheGet key].
Proof.
  intros Hlaws Hop Hok Hnull w1.
  destruct (read_ok_is_cached op w v Hlaws Hop Hok Hnull)
    as (key & c & Hkey & Hget & Hv).
  subst w1. rewrite (read_hit_run _ _ key v c Hkey Hget Hv).
  split; [done|]. exists key. by apply events_since_app.
Qed.

(** X6. Reviews and variants of a product that has none: the read returns
    the empty list and caches it for 1800 s, unlike the lookup of a missing
    product, which caches nothing. *)
Theorem empty_collections_are_cached (op : read_op) (p : row) (w : World C)
    (v : value) (c c' : C) :
  op = ReadReviews p \/ op = ReadVariants p ->
  forall key q ps,
  read_key op w = Some key ->
  read_query op w = Some (q, ps) ->
  cache_get key (cache w) = (Ok v, c) ->
  truthy v = false ->
  select (db w) q ps = Ok [] ->
  cache_set key (VArr []) (Some 1800) c = (Ok (), c') ->
  (run_read op w).1 = Ok (VArr []) /\
  events_since w (run_read op w).2
  = [EvCacheGet key; EvPoolQuery q ps; EvCacheSet key (VArr []) (Some 1800)].
Proof.
  intros [-> | ->] key q ps [= <-] [= <- <-] Hget Hv Hsel Hset.
  all: unfold run_read, reviews, variants, try_catch, bind,
    redisService_get, redisService_set, pool_query, remember_reviews,
    remember_variants, lift_res; cbn.
  all: rewrite Hget; cbn; rewrite Hv; cbn; rewrite Hsel; cbn;
    rewrite Hset; cbn.
  all: split; [done|]; apply events_since_app; cbn;
    by rewrite <- !app_assoc.
Qed.

(** X7. The category resolver for a product whose category row the store
    does not return: reading [id] of the missing row throws a TypeError,
    which is logged and rethrown; nothing is cached. *)
Theorem category_missing_row_throws (p raw : row) (w : World C)
    (v : value) (c : C) :
  Map_get (productData w) (getProp p "id") = Some raw ->
  cache_get (category_cacheKey raw) (cache w) = (Ok v, c) ->
  truthy v = false ->
  select (db w) SelectCategoryById [getProp raw "category_id"] = Ok [] ->
  (category p w).1
  = Err (TypeError "Cannot read properties of undefined (reading 'id')") /\
  events_since w (category p w).2
  = [EvCacheGet (category_cacheKey raw);
     EvPoolQuery SelectCategoryById [getProp raw "category_id"];
     EvLog "Fehler beim Abrufen der Kategorie"].
Proof.
  intros Hraw Hget Hv Hsel.
  unfold category. rewrite Hraw.
  unfold try_catch, bind, redisService_get, pool_query, lift_res. cbn.
  rewrite Hget. cbn. rewrite Hv. cbn. rewrite Hsel. cbn.
  split; [done|]. apply events_since_app. cbn. by rewrite <- !app_assoc.
Qed.

Lemma map_throwing_first_error {A B} (f : A -> res B) (xs : list A)
    (e : exn) :
  map_throwing f xs = Err e ->
  exists good bad rest,
    xs = good ++ bad :: rest /\
    Forall (fun x => exists y, f x = Ok y) good /\
    f bad = Err e.
Proof.
  induction xs as [|x xs IH]; [done|]. cbn.
  destruct (f x) as [y|e'] eqn:Hx.
  - destruct (map_throwing f xs) as [ys|e'']; [done|].
    intros Herr. injection Herr as ->.
    destruct (IH eq_refl) as (good & bad & rest & -> & Hgood & Hbad).
    exists (x :: good), bad, rest. split; [done|]. split; [|done].
    constructor; [by exists y|done].
  - intros Herr. injection Herr as ->. by exists [], x, xs.
Qed.

(** X9. One review row the mapper throws on fails the whole read.  The
    error is that of the first such row: a RangeError when its [created_at]
    is an Invalid Date, a TypeError when it is no [Date] at all.  The error
    is logged and rethrown and nothing is cached: the calls are the lookup,
    the query and the log entry.  The rows have by then replaced the
    product's entry in [reviewData]. *)
Theorem reviews_bad_row_fails_read (p : row) (w : World C) (v : value)
    (c : C) (rows : list row) (e : exn) :
  cache_get (reviews_cacheKey p) (cache w) = (Ok v, c) ->
  truthy v = false ->
  select (db w) SelectReviews [getProp p "id"] = Ok rows ->
  map_throwing mapReviewDBToReview rows = Err e ->
  (reviews p w).1 = Err e /\
  (exists good bad rest,
     rows = good ++ bad :: rest /\
     Forall (fun r => exists d, toISOString (getProp r "created_at") = Ok d)
            good /\
     toISOString (getProp bad "created_at") = Err e /\
     exn_name e = match getProp bad "created_at" with
                  | VInvalidDate => "RangeError"
                  | _ => "TypeError"
                  end) /\
  events_since w (reviews p w).2
  = [EvCacheGet (reviews_cacheKey p);
     EvPoolQuery SelectReviews [getProp p "id"];
     EvLog "Fehler beim Abrufen der Bewertungen"] /\
  reviewData (reviews p w).2
  = Map_set (reviewData w) (getProp p "id") rows.
Proof.
  intros Hget Hv Hsel Hmap.
  split; [|split; [|split]].
  - unfold reviews, try_catch, bind, redisService_get, pool_query, lift_res,
      remember_reviews. cbn.
    rewrite Hget. cbn. rewrite Hv. cbn. rewrite Hsel. cbn. by rewrite Hmap.
  - destruct (map_throwing_first_error _ _ _ Hmap)
      as (good & bad & rest & -> & Hgood & Hbad).
    exists good, bad, rest. split; [done|].
    unfold mapReviewDBToReview in Hbad.
    split; [|split].
    + eapply Forall_impl; [exact Hgood|]. intros r [y Hy].
      unfold mapReviewDBToReview in Hy.
      destruct (toISOString (getProp r "created_at")) as [d|?]; [|done].
      by exists d.
    + by destruct (toISOString (getProp bad "created_at")); simplify_eq.
    + unfold toISOString in Hbad.
      by destruct (getProp bad "created_at"); simplify_eq.
  - unfold reviews, try_catch, bind, redisService_get, pool_query, lift_res,
      remember_reviews. cbn.
    rewrite Hget. cbn. rewrite Hv. cbn. rewrite Hsel. cbn. rewrite Hmap. cbn.
    apply events_since_app. cbn. by rewrite <- !app_assoc.
  - unfold reviews, try_catch, bind, redisService_get, pool_query, lift_res,
      remember_reviews. cbn.
    rewrite Hget. cbn. rewrite Hv. cbn. rewrite Hsel. cbn. by rewrite Hmap.
Qed.

End MoreReadProperties.

(** ** The side table, filled *)

Lemma sameValueZero_VStr (k : value) (s : string) :
  sameValueZero k (VStr s) = true <-> k = VStr s.
Proof.
  destruct k; cbn; try (split; [discriminate|discriminate]).
  rewrite String.eqb_eq. split; congruence.
Qed.

Lemma sameValueZero_VStr_l (k : value) (s : string) :
  sameValueZero (VStr s) k = true <-> k = VStr s.
Proof.
  destruct k; cbn; try (split; [discriminate|discriminate]).
  rewrite String.eqb_eq. split; congruence.
Qed.

Lemma Map_get_set_str {V} (m : list (value * V)) (s : string) (v : V) :
  Map_get (Map_set m (VStr s) v) (VStr s) = Some v.
Proof.
  induction m as [|[k' v'] m IH]; cbn.
  - by rewrite String.eqb_refl.
  - destruct (sameValueZero k' (VStr s)) eqn:Hk; cbn; by rewrite Hk.
Qed.

Lemma Map_get_set_other {V} (m : list (value * V)) (k : value) (s : string)
    (v : V) :
  k <> VStr s ->
  Map_get (Map_set m k v) (VStr s) = Map_get m (VStr s).
Proof.
  intros Hne. induction m as [|[k' v'] m IH]; cbn.
  - destruct (sameValueZero k (VStr s)) eqn:Hk; [|done].
    by apply sameValueZero_VStr in Hk.
  - destruct (sameValueZero k' k) eqn:Hk'; cbn.
    + destruct (sameValueZero k' (VStr s)) eqn:Hs; [|done].
      apply sameValueZero_VStr in Hs as ->.
      by apply sameValueZero_VStr_l in Hk'.
    + by rewrite IH.
Qed.

Lemma remembered_rows (rows : list row) (m : list (value * row))
    (s : string) :
  (exists r, r ∈ rows /\ getProp r "id" = VStr s) ->
  exists raw,
    Map_get (fold_left (fun m r => Map_set m (getProp r "id") r) rows m)
            (VStr s) = Some raw /\
    raw ∈ rows /\ getProp raw "id" = VStr s.
Proof.
  induction rows as [|r rows IH] using rev_ind; intros (r0 & Hin & Hid).
  { by apply elem_of_nil in Hin. }
  rewrite fold_left_app. cbn.
  destruct (sameValueZero (getProp r "id") (VStr s)) eqn:Hr.
  - apply sameValueZero_VStr in Hr. exists r. rewrite Hr, Map_get_set_str.
    split; [done|]. split; [|done]. apply elem_of_app. right. by left.
  - assert (Hne : getProp r "id" <> VStr s).
    { intros Heq. apply sameValueZero_VStr in Heq. congruence. }
    rewrite Map_get_set_other by done.
    apply elem_of_app in Hin as [Hin|Hin].
    + destruct IH as (raw & Hget & Hraw & Hrid); [by exists r0|].
      exists raw. split; [done|]. split; [|done]. apply elem_of_app. by left.
    + apply list_elem_of_singleton in Hin as ->. done.
Qed.

Section FilledSideTable.
Context {C : Type} `{CacheClient C}.

(** X8. After a list read that missed the cache, the category resolver
    knows every product of the page that has a string id: given the mapped
    product, it finds a raw row of the page with that id and goes on to look
    the category up in the cache. *)
Theorem products_miss_enables_category (limit offset : Z) (w : World C)
    (v : value) (c c' : C) (rows : list row) (r : row) (s : string) :
  cache_get (products_cacheKey limit offset) (cache w) = (Ok v, c) ->
  truthy v = false ->
  select (db w) SelectProductsPage [VNum limit; VNum offset] = Ok rows ->
  cache_set (products_cacheKey limit offset) (VArr (map VObj rows))
            (Some 300) c = (Ok (), c') ->
  r ∈ rows ->
  getProp r "id" = VStr s ->
  let w1 := (products limit offset w).2 in
  let p := mapProductDBToProduct r in
  exists raw,
    Map_get (productData w1) (getProp p "id") = Some raw /\
    raw ∈ rows /\ getProp raw "id" = VStr s /\
    head (events_since w1 (category p w1).2)
    = Some (EvCacheGet (category_cacheKey raw)).
Proof.
  intros Hget Hv Hsel Hset Hin Hid w1 p.
  destruct (products_miss limit offset w v c c' rows Hget Hv Hsel Hset)
    as (_ & _ & Hdata).
  destruct (remembered_rows rows (productData w) s)
    as (raw & Hraw & Hrin & Hrid).
  { by exists r. }
  exists raw. subst w1 p. rewrite Hdata.
  change (getProp (mapProductDBToProduct r) "id") with (getProp r "id").
  rewrite Hid. split; [done|]. split; [done|]. split; [done|].
  destruct (read_trace (ReadCategory (mapProductDBToProduct r))
              (products limit offset w).2) as (evs & Hevs & Hhead & _).
  cbn [run_read] in Hevs. rewrite Hevs. apply Hhead.
  cbn [read_key].
  change (getProp (mapProductDBToProduct r) "id") with (getProp r "id").
  by rewrite Hdata, Hid, Hraw.
Qed.

End FilledSideTable.

(** ** The calls of the mutation *)

Section MutationCalls.
Context {C : Type} `{CacheClient C}.
Variable validate : CreateProductInput.t -> option exn.

Local Abbreviation only kind m := (emits_only (C := C) kind m).

Lemma only_ret {A} kind (a : A) : only kind (ret a).
Proof. intros w. exists []. by rewrite app_nil_r. Qed.

Lemma only_lift_res {A} kind (r : res A) : only kind (lift_res r).
Proof. intros w. exists []. by rewrite app_nil_r. Qed.

Lemma only_bind {A B} kind (m : M C A) (k : A -> M C B) :
  only kind m -> (forall a, only kind (k a)) -> only kind (bind m k).
Proof.
  intros Hm Hk w. unfold bind. destruct (Hm w) as (evs & Htr & Hevs).
  destruct (m w) as [[a|e] w1]; [|by exists evs].
  destruct (Hk a w1) as (evs' & Htr' & Hevs'). exists (evs ++ evs').
  cbn in Htr. rewrite Htr', Htr, <- app_assoc. split; [done|].
  by rewrite forallb_app, Hevs, Hevs'.
Qed.

Lemma only_for_of {A} kind (xs : list A) (f : A -> M C ()) :
  (forall x, only kind (f x)) -> only kind (for_of xs f).
Proof.
  intros Hf. induction xs as [|x xs IH]; [apply only_ret|].
  cbn [for_of]. by apply only_bind.
Qed.

Lemma only_client_query (q : sql) (ps : list value) :
  only is_transaction_call (client_query q ps).
Proof.
  intros w. exists [EvClientQuery q ps]. unfold client_query. cbn.
  by destruct (pg_client_query q ps (db w)).
Qed.

Lemma only_delete :
  only is_transaction_call (redisService_del ["products:*"]).
Proof.
  intros w. exists [EvCacheDel ["products:*"]]. unfold redisService_del. cbn.
  by destruct (cache_del ["products:*"] (cache w)).
Qed.

Lemma only_transaction (input : CreateProductInput.t) :
  only is_transaction_call (createProduct_transaction input).
Proof.
  unfold createProduct_transaction, insert_variants.
  repeat first
    [ apply only_bind
    | match goal with |- forall _, _ => intro end
    | apply only_client_query
    | apply only_delete | apply only_ret | apply only_lift_res
    | apply only_for_of
    | match goal with
      | |- emits_only _ (match ?x with _ => _ end) => destruct x
      end ].
Qed.

(** X10. An input the schema rejects, or a pool that hands out no
    connection, ends the mutation before its transaction: the caller gets
    that error, the store and the cache are as before, and nothing was sent
    on a connection, deleted from the cache or released; the failure is
    logged. *)
Theorem createProduct_rejected_early (input : CreateProductInput.t)
    (w : World C) (e : exn) :
  validate input = Some e \/
  (validate input = None /\ connect_error (db w) = Some e) ->
  let r := createProduct validate input w in
  let evs := events_since w r.2 in
  r.1 = Err e /\
  db r.2 = db w /\ cache r.2 = cache w /\
  count is_client_query evs = 0%nat /\
  count is_cache_del evs = 0%nat /\
  count is_release evs = 0%nat /\
  last evs = Some (EvLog "Fehler beim Erstellen des Produkts").
Proof.
  intros Hrej.
  unfold createProduct, try_catch, try_finally, bind, pool_connect,
    client_release, logger_error, throw.
  destruct Hrej as [Hval|[Hval Hconn]]; rewrite Hval; cbn.
  - erewrite events_since_app by reflexivity. done.
  - rewrite Hconn. cbn.
    erewrite events_since_app by (cbn; rewrite <- !app_assoc; reflexivity).
    done.
Qed.

(** X11. Once the input is accepted and a connection obtained, the calls of
    the mutation are: the connect, then only statements on the connection
    and at most the delete of the literal key [products:*], then the
    release of the connection, then at most the log entry.  The connection
    is released exactly once, whatever throws, and after every statement
    sent on it. *)
Theorem connection_is_released_once (input : CreateProductInput.t)
    (w : World C) :
  validate input = None ->
  connect_error (db w) = None ->
  let evs := events_since w (createProduct validate input w).2 in
  count is_release evs = 1%nat /\
  exists sent logged,
    evs = EvConnect :: sent ++ EvRelease :: logged /\
    forallb is_transaction_call sent = true /\
    forallb is_log logged = true.
Proof.
  intros Hval Hconn.
  rewrite (createProduct_run validate input w Hval Hconn).
  destruct (only_transaction input (emit EvConnect w)) as (evs & Htr & Hevs).
  destruct (createProduct_transaction input (emit EvConnect w)) as [[v|e] w1];
    cbn [snd] in Htr.
  - cbn zeta. cbn [snd].
    erewrite events_since_app
      by (cbn; rewrite Htr; cbn; rewrite <- !app_assoc; reflexivity).
    assert (Hshape : exists sent logged,
              [EvConnect] ++ evs ++ [EvRelease]
              = EvConnect :: sent ++ EvRelease :: logged /\
              forallb is_transaction_call sent = true /\
              forallb is_log logged = true) by (by exists evs, []).
    split; [|exact Hshape].
    unfold count. cbn. rewrite List.filter_app, length_app. cbn.
    clear -Hevs. induction evs as [|ev evs IH]; [done|].
    cbn in Hevs. apply andb_prop in Hevs as [Hev Hevs]. cbn.
    destruct ev; try done; cbn; by apply IH.
  - pose proof (after_rollback_run e w1) as (_ & _ & _ & Htr' & _).
    cbn zeta.
    erewrite events_since_app
      by (rewrite Htr', Htr; cbn; rewrite <- !app_assoc; reflexivity).
    split.
    + unfold count. cbn. rewrite List.filter_app, length_app. cbn.
      clear -Hevs. induction evs as [|ev evs IH]; [done|].
      cbn in Hevs. apply andb_prop in Hevs as [Hev Hevs]. cbn.
      destruct ev; try done; cbn; by apply IH.
    + exists (evs ++ [EvClientQuery Rollback []]),
        [EvLog "Fehler beim Erstellen des Produkts"].
      split; [cbn; by rewrite <- !app_assoc|].
      by rewrite forallb_app, Hevs.
Qed.

(** X12. When every statement up to COMMIT succeeds and the delete from the
    cache then throws, the mutation fails although the product and all its
    variants are committed: ROLLBACK is sent after COMMIT, where it undoes
    nothing, and the caller gets the error of the delete (or that of
    ROLLBACK, should it throw as well). *)
Theorem invalidation_failure_after_commit (input : CreateProductInput.t)
    (w : World C) (e : exn) (c : C) :
  validate input = None ->
  connect_error (db w) = None ->
  txn (db w) = None ->
  first_fault (faults (db w)) (3 + length (variants_of input)) = None ->
  cache_del ["products:*"] (cache w) = (Err e, c) ->
  let r := createProduct validate input w in
  let new_product := product_row (next_id (db w)) (product_params input) in
  r.1 = Err (match drop (3 + length (variants_of input)) (faults (db w)) with
             | Some e' :: _ => e'
             | _ => e
             end) /\
  committed_whole input (db w) (db r.2) /\
  events_since w r.2
  = [EvConnect] ++ transaction_calls input (getProp new_product "id")
    ++ [EvCacheDel ["products:*"]; EvClientQuery Rollback []; EvRelease;
        EvLog "Fehler beim Erstellen des Produkts"].
Proof.
  intros Hval Hconn Htxn Hff Hdel r new_product. subst r.
  rewrite (createProduct_run validate input w Hval Hconn).
  pose proof (transaction_run input (emit EvConnect w) Htxn) as Hrun.
  cbn zeta in Hrun. cbn [db emit cache] in Hrun.
  change (3 + length (variants_of input))%nat
    with (S (S (S (length (variants_of input))))) in *.
  rewrite Hff, Hdel in Hrun. cbn [fst snd] in Hrun.
  destruct (createProduct_transaction input (emit EvConnect w)) as [r w1].
  cbn [fst snd] in Hrun.
  destruct Hrun as (_ & _ & _ & Hwhole & _ & Hfl & Htr & _ & ->).
  pose proof (after_rollback_run e w1) as (Hcomm & _ & _ & Htr' & Hr).
  rewrite Hr, Hfl. split; [done|].
  split; [by eapply committed_whole_then_nothing|].
  apply events_since_app. rewrite Htr', Htr. cbn [trace emit].
  by rewrite <- !app_assoc.
Qed.

End MutationCalls.

(** ** The cache client, in every state *)

Section RedisLifecycleProperties.
Variable JSON_stringify : value -> option string.
Variable JSON_parse : string -> res value.

(** X13. The reconnection delay is 50 ms per attempt until the fortieth
    attempt and 2000 ms from then on: it never exceeds 2000 ms and never
    shrinks from one attempt to the next. *)
Theorem retry_delay_is_capped (times : Z) (s : RedisService.t) :
  let delay t := (RedisLifecycle.retryStrategy t s).1 in
  delay times <= 2000 /\
  (times <= 40 -> delay times = 50 * times) /\
  (40 <= times -> delay times = 2000) /\
  (forall later, times <= later -> delay times <= delay later).
Proof. cbn. repeat split; intros; lia. Qed.

(** X14. In every state of the service [get], [set] and [del] reject and
    leave the entries of the server as they are.  The error is the failed
    probe when the flag is down and the server does not answer, else
    'Breaker is open' when the circuit is open, else the TypeError of the
    breaker's action. *)
Theorem service_calls_always_reject (s : RedisService.t) (key : string)
    (v : value) (ttl : option Z) (keys : list string) :
  let e := RedisLifecycle.rejection s in
  let same (s' : RedisService.t) :=
    RedisService.client s' = RedisService.client s in
  ((RedisService.get JSON_parse key s).1 = Err e /\
   same (RedisService.get JSON_parse key s).2) /\
  ((RedisService.set JSON_stringify key v ttl s).1 = Err e /\
   same (RedisService.set JSON_stringify key v ttl s).2) /\
  ((RedisService.del keys s).1 = Err e /\
   same (RedisService.del keys s).2).
Proof.
  destruct s as [[entries up] flag circuit log].
  destruct flag, up, circuit, ttl; cbn; done.
Qed.

(** X15. [ensureConnection] succeeds exactly when the flag is up or the
    server answers the probe.  After a success the flag is up and a second
    call changes nothing; after a failure the flag is still down. *)
Theorem ensureConnection_outcome (s : RedisService.t) :
  let r := RedisService.ensureConnection s in
  (r.1 = Ok () <->
   RedisService.isConnected s = true \/
   RedisService.reachable (RedisService.client s) = true) /\
  (r.1 = Ok () ->
   RedisService.isConnected r.2 = true /\
   RedisService.ensureConnection r.2 = (Ok (), r.2)) /\
  (r.1 <> Ok () -> RedisService.isConnected r.2 = false) /\
  RedisService.client r.2 = RedisService.client s.
Proof.
  destruct s as [[entries up] flag circuit log].
  destruct flag, up; cbn; repeat split; try done; try tauto.
  all: intros; try done; intuition discriminate.
Qed.

(** X16. [close] does nothing on a service whose flag is down: it does
    not call [quit].  With the flag up it quits the client.  When [quit]
    answers, [close] returns, the flag is down, the closing is logged and
    closing again changes nothing.  When [quit] throws, [close] logs the
    failure and rethrows that error, and the flag stays up.  The circuit is
    not touched. *)
Theorem close_outcome
    (quit : RedisService.Redis -> res value * RedisService.Redis)
    (s : RedisService.t) :
  let r := RedisLifecycle.close quit s in
  (RedisService.isConnected s = false -> r = (Ok (), s)) /\
  (RedisService.isConnected s = true ->
   match quit (RedisService.client s) with
   | (Ok _, c) =>
       r.1 = Ok () /\
       RedisService.isConnected r.2 = false /\
       RedisService.client r.2 = c /\
       RedisService.log r.2
       = RedisService.log s ++ ["Redis Verbindung geschlossen"] /\
       RedisLifecycle.close quit r.2 = (Ok (), r.2)
   | (Err e, c) =>
       r.1 = Err e /\
       RedisService.isConnected r.2 = true /\
       RedisService.client r.2 = c /\
       RedisService.log r.2
       = RedisService.log s ++ ["Fehler beim Schließen der Redis-Verbindung"]
   end) /\
  RedisService.circuit r.2 = RedisService.circuit s.
Proof.
  destruct s as [client flag circuit log]. unfold RedisLifecycle.close.
  destruct flag; cbn; [|done].
  destruct (quit client) as [[v|e] c]; cbn; repeat split; done.
Qed.

(** X17. The flag follows the client's events: after any events it is up
    exactly when the last of them was a connect, and when there were none it
    is what it was.  The entries of the server and the circuit are not
    touched. *)
Theorem isConnected_tracks_last_event
    (evs : list RedisLifecycle.client_event) (s : RedisService.t) :
  let s' := RedisLifecycle.handle_all evs s in
  RedisService.isConnected s'
  = match last evs with
    | None => RedisService.isConnected s
    | Some RedisLifecycle.OnConnect => true
    | Some _ => false
    end /\
  RedisService.client s' = RedisService.client s /\
  RedisService.circuit s' = RedisService.circuit s /\
  length (RedisService.log s') = (length (RedisService.log s) + length evs)%nat.
Proof.
  cbn zeta. unfold RedisLifecycle.handle_all.
  induction evs as [|ev evs IH] using rev_ind; [cbn; repeat split; lia|].
  rewrite fold_left_app, last_snoc, length_app. cbn [fold_left].
  destruct IH as (_ & Hc & Hb & Hl).
  destruct ev; cbn; rewrite ?length_app, Hl; cbn; repeat split; try done; lia.
Qed.

End RedisLifecycleProperties.

(** ** The database helper *)

Section DatabaseProperties.
Context {C : Type}.

(** X18. [queryOne] sends one query and logs one entry.  It returns the
    first row, or null when the result is empty, never undefined; an error
    of the store reaches the caller unchanged. *)
Theorem queryOne_outcome (text : sql) (params : list value) (w : World C) :
  let r := Database.queryOne text params w in
  r.1 = match select (db w) text params with
        | Ok rows => Ok (match head rows with
                         | Some first => VObj first
                         | None => VNull
                         end)
        | Err e => Err e
        end /\
  r.1 <> Ok VUndefined /\
  events_since w r.2
  = [EvPoolQuery text params;
     EvLog (match select (db w) text params with
            | Ok _ => "Abfrage ausgeführt"
            | Err _ => "Fehler bei der Abfrage"
            end)].
Proof.
  unfold Database.queryOne, Database.query, Database.logger_info, try_catch,
    bind, pool_query, logger_error, throw, ret. cbn.
  destruct (select (db w) text params) as [rows|e]; cbn.
  - split; [done|]. split; [by destruct rows|].
    apply events_since_app. cbn. by rewrite <- !app_assoc.
  - split; [done|]. split; [done|].
    apply events_since_app. cbn. by rewrite <- !app_assoc.
Qed.

Lemma rolled_back_run {A} (e : exn) (w : World C) :
  let r := Database.rolled_back (A := A) e w in
  (exists e', r.1 = Err e') /\ committed_nothing (db w) (db r.2).
Proof.
  cbn zeta. unfold Database.rolled_back, bind, client_query, logger_error,
    throw. cbn.
  pose proof (rollback_committed (db w)) as Hcomm.
  destruct (pg_client_query Rollback [] (db w)) as [[rows|e'] d]; cbn in *;
    split; eauto.
Qed.

Lemma transaction_run_steps {A} (callback : M C A) (w : World C) :
  connect_error (db w) = None ->
  Database.transaction callback w
  = match client_query Begin [] (emit EvConnect w) with
    | (Err e, w1) => Database.rolled_back e w1
    | (Ok _, w1) =>
        match callback w1 with
        | (Err e, w2) => Database.rolled_back e w2
        | (Ok a, w2) =>
            match client_query Commit [] w2 with
            | (Err e, w3) => Database.rolled_back e w3
            | (Ok _, w3) => (Ok a, emit EvRelease w3)
            end
        end
    end.
Proof.
  intros Hconn.
  unfold Database.transaction, Database.rolled_back, try_finally, try_catch,
    bind, pool_connect, client_release, ret. cbn [emit db]. rewrite Hconn.
  destruct (client_query Begin [] (emit EvConnect w)) as [[rows|e] w1];
    [|done].
  destruct (callback w1) as [[a|e] w2]; [|done].
  by destruct (client_query Commit [] w2) as [[rows'|e] w3].
Qed.

(** X19. [transaction] is all or nothing for a callback that writes inside
    the transaction it is given.  When it returns the callback's value, the
    rows the callback left pending, and only they, have been added to the
    committed tables and the transaction is closed.  When it throws, because
    BEGIN, the callback or COMMIT threw, the committed tables are as they
    were. *)
Theorem transaction_is_all_or_nothing {A} (callback : M C A) (w : World C) :
  connect_error (db w) = None ->
  txn (db w) = None ->
  Database.stays_in_transaction callback ->
  let r := Database.transaction callback w in
  let begun := (client_query Begin [] (emit EvConnect w)).2 in
  match r.1 with
  | Ok a =>
      (callback begun).1 = Ok a /\
      exists ps vs,
        txn (db (callback begun).2) = Some (ps, vs) /\
        products_tbl (db r.2) = products_tbl (db w) ++ ps /\
        variants_tbl (db r.2) = variants_tbl (db w) ++ vs /\
        txn (db r.2) = None
  | Err _ => committed_nothing (db w) (db r.2)
  end.
Proof.
  intros Hconn Htxn Hstays r begun. subst r begun.
  rewrite (transaction_run_steps callback w Hconn).
  assert (Hbegin : committed_nothing (db w)
                     (db (client_query Begin [] (emit EvConnect w)).2)
                   /\ (forall rows,
                         (client_query Begin [] (emit EvConnect w)).1
                         = Ok rows ->
                         is_Some (txn (db (client_query Begin []
                                             (emit EvConnect w)).2)))).
  { unfold client_query, pg_client_query, pg_run. cbn.
    destruct (faults (db w)) as [|[e|] rest]; cbn; rewrite ?Htxn; cbn;
      by repeat split. }
  destruct Hbegin as [Hb Hopen].
  destruct (client_query Begin [] (emit EvConnect w)) as [[rows|e] w1];
    cbn [fst snd] in *.
  2: { destruct (rolled_back_run (A := A) e w1) as [[e' He'] Hcomm].
       rewrite He'. by eapply committed_nothing_trans. }
  specialize (Hopen rows eq_refl).
  destruct (Hstays w1 Hopen) as [Hcb Hopen2].
  destruct (callback w1) as [[a|e] w2]; cbn [fst snd] in *.
  2: { destruct (rolled_back_run (A := A) e w2) as [[e' He'] Hcomm].
       rewrite He'. eapply committed_nothing_trans; [|exact Hcomm].
       by eapply committed_nothing_trans. }
  destruct Hopen2 as [[ps vs] Hpending].
  destruct Hb as [Hb1 Hb2]. destruct Hcb as [Hc1 Hc2].
  unfold client_query, pg_client_query, pg_run.
  cbn [emit db with_db].
  destruct (faults (db w2)) as [|[e|] rest] eqn:Hf; cbn [pg_with_faults txn].
  2: { match goal with
       | |- context [Database.rolled_back e ?w3] =>
           destruct (rolled_back_run (A := A) e w3) as [[e' He'] [H1 H2]]
       end.
       rewrite He'. cbn in H1, H2. split; congruence. }
  all: rewrite Hpending; cbn.
  all: split; [done|]; exists ps, vs; rewrite Hc1, Hc2, Hb1, Hb2; done.
Qed.

End DatabaseProperties.

(** ** The further properties at concrete worlds *)

Lemma MemoryCache_reads_back : reads_back MemoryCache.t.
Proof.
  split.
  - intros key c v c'. cbn. unfold MemoryCache.get.
    intros Hget. injection Hget as <- <-. reflexivity.
  - intros key v ttl c c'. cbn. unfold MemoryCache.get, MemoryCache.set.
    intros Hset. injection Hset as <-. by rewrite lookup_insert_eq.
Qed.

Lemma insert_one_stays_in_transaction {C} :
  Database.stays_in_transaction (Sample.insert_one (C := C)).
Proof.
  intros w [[ps vs] Hopen].
  unfold Sample.insert_one, bind, client_query, pg_client_query, pg_run, ret.
  cbn.
  destruct (faults (db w)) as [|[e|] rest]; cbn; rewrite ?Hopen; cbn;
    by repeat split.
Qed.

(** The list read on a store that throws. *)
Lemma store_failure_is_rethrown_witness :
  let w := Concrete.world Concrete.cold Sample.broken_store in
  run_read (ReadProducts 10 0) w
  = (Err Sample.store_error,
     emit (EvLog "Fehler beim Abrufen der Produkte")
       (emit (EvPoolQuery SelectProductsPage [VNum 10; VNum 0])
          (with_cache (emit (EvCacheGet "products:10:0") w) Concrete.cold))).
Proof.
  apply (store_failure_is_rethrown (ReadProducts 10 0)
           (Concrete.world Concrete.cold Sample.broken_store)
           "products:10:0" VNull Concrete.cold
           SelectProductsPage [VNum 10; VNum 0] Sample.store_error);
    vm_compute; reflexivity.
Defined.

(** The page the list read writes expires after 300 s. *)
Lemma reads_write_with_ttl_witness :
  read_key (ReadProducts 10 0)
           (Concrete.world Concrete.cold (Concrete.store []))
  = Some "products:10:0" /\
  Some 300 = Some (read_ttl (ReadProducts 10 0)).
Proof.
  apply (reads_write_with_ttl (ReadProducts 10 0)
           (Concrete.world Concrete.cold (Concrete.store []))
           "products:10:0" (VArr [VObj Concrete.row1]) (Some 300)).
  vm_compute. do 2 right. left.
Defined.

(** The reviews of a product that has none, read twice from an empty
    cache. *)
Lemma read_is_repeatable_witness :
  let op := ReadReviews Sample.product1 in
  let w := Concrete.world Concrete.cold (Concrete.store []) in
  let w1 := (run_read op w).2 in
  (run_read op w1).1 = Ok (VArr []) /\
  exists key, events_since w1 (run_read op w1).2 = [EvCacheGet key].
Proof.
  apply (read_is_repeatable (ReadReviews Sample.product1)
           (Concrete.world Concrete.cold (Concrete.store [])) (VArr []));
    [ apply MemoryCache_reads_back | reflexivity | vm_compute; reflexivity
    | discriminate ].
Defined.

(** The variants of a product that has none. *)
Lemma empty_collections_are_cached_witness :
  let op := ReadVariants Sample.product1 in
  let w := Concrete.world Concrete.cold (Concrete.store []) in
  (run_read op w).1 = Ok (VArr []) /\
  events_since w (run_read op w).2
  = [EvCacheGet "variants:1"; EvPoolQuery SelectVariants [VStr "1"];
     EvCacheSet "variants:1" (VArr []) (Some 1800)].
Proof.
  apply (empty_collections_are_cached (ReadVariants Sample.product1)
           Sample.product1
           (Concrete.world Concrete.cold (Concrete.store []))
           VNull Concrete.cold
           (<["variants:1" := (VArr [], Some 1800)]> Concrete.cold)
           (or_intror eq_refl)
           "variants:1" SelectVariants [VStr "1"]);
    vm_compute; reflexivity.
Defined.

(** The category of the test-suite's product on a store without its
    category row. *)
Lemma category_missing_row_throws_witness :
  let w := Sample.knowing Concrete.cold (Concrete.store []) in
  (category Sample.product1 w).1
  = Err (TypeError "Cannot read properties of undefined (reading 'id')") /\
  events_since w (category Sample.product1 w).2
  = [EvCacheGet (category_cacheKey Concrete.row1);
     EvPoolQuery SelectCategoryById [getProp Concrete.row1 "category_id"];
     EvLog "Fehler beim Abrufen der Kategorie"].
Proof.
  apply (category_missing_row_throws Sample.product1 Concrete.row1
           (Sample.knowing Concrete.cold (Concrete.store []))
           VNull Concrete.cold);
    vm_compute; reflexivity.
Defined.

(** The list read of the test-suite, then the category of its product. *)
Lemma products_miss_enables_category_witness :
  let w := Concrete.world Concrete.cold (Concrete.store []) in
  let w1 := (products 10 0 w).2 in
  let p := mapProductDBToProduct Concrete.row1 in
  exists raw,
    Map_get (productData w1) (getProp p "id") = Some raw /\
    raw ∈ [Concrete.row1] /\ getProp raw "id" = VStr "1" /\
    head (events_since w1 (category p w1).2)
    = Some (EvCacheGet (category_cacheKey raw)).
Proof.
  apply (products_miss_enables_category 10 0
           (Concrete.world Concrete.cold (Concrete.store []))
           VNull Concrete.cold
           (<["products:10:0" := (VArr [VObj Concrete.row1], Some 300)]>
              Concrete.cold)
           [Concrete.row1] Concrete.row1 "1");
    [ vm_compute; reflexivity | reflexivity | reflexivity
    | vm_compute; reflexivity | apply list_elem_of_singleton; reflexivity
    | reflexivity ].
Defined.

(** Three reviews: the second has an Invalid Date, the third no date. *)
Lemma reviews_bad_row_fails_read_witness :
  let w := Concrete.world Concrete.cold Sample.review_store in
  let rows := [Sample.review; Sample.misdated_review;
               Sample.undated_review] in
  let e := Exn "RangeError" "Invalid time value" in
  (reviews Sample.product1 w).1 = Err e /\
  (exists good bad rest,
     rows = good ++ bad :: rest /\
     Forall (fun r => exists d, toISOString (getProp r "created_at") = Ok d)
            good /\
     toISOString (getProp bad "created_at") = Err e /\
     exn_name e = match getProp bad "created_at" with
                  | VInvalidDate => "RangeError"
                  | _ => "TypeError"
                  end) /\
  events_since w (reviews Sample.product1 w).2
  = [EvCacheGet (reviews_cacheKey Sample.product1);
     EvPoolQuery SelectReviews [getProp Sample.product1 "id"];
     EvLog "Fehler beim Abrufen der Bewertungen"] /\
  reviewData (reviews Sample.product1 w).2
  = Map_set (reviewData w) (getProp Sample.product1 "id") rows.
Proof.
  apply (reviews_bad_row_fails_read Sample.product1
           (Concrete.world Concrete.cold Sample.review_store)
           VNull Concrete.cold
           [Sample.review; Sample.misdated_review; Sample.undated_review]);
    vm_compute; reflexivity.
Defined.

(** An input the schema rejects. *)
Lemma createProduct_rejected_early_witness :
  let w := Concrete.world Concrete.warm (Concrete.store []) in
  let r := createProduct Sample.reject_all Concrete.input w in
  let evs := events_since w r.2 in
  r.1 = Err Sample.validation_error /\
  db r.2 = db w /\ cache r.2 = cache w /\
  count is_client_query evs = 0%nat /\
  count is_cache_del evs = 0%nat /\
  count is_release evs = 0%nat /\
  last evs = Some (EvLog "Fehler beim Erstellen des Produkts").
Proof.
  apply (createProduct_rejected_early Sample.reject_all Concrete.input
           (Concrete.world Concrete.warm (Concrete.store []))
           Sample.validation_error).
  left. reflexivity.
Defined.

(** The mutation whose product INSERT throws. *)
Lemma connection_is_released_once_witness :
  let w := Concrete.world Concrete.warm
             (Concrete.store [None; Some Concrete.insert_error]) in
  let evs := events_since w
               (createProduct Concrete.accept_all Concrete.input w).2 in
  count is_release evs = 1%nat /\
  exists sent logged,
    evs = EvConnect :: sent ++ EvRelease :: logged /\
    forallb is_transaction_call sent = true /\
    forallb is_log logged = true.
Proof.
  apply (connection_is_released_once Concrete.accept_all Concrete.input
           (Concrete.world Concrete.warm
              (Concrete.store [None; Some Concrete.insert_error])));
    reflexivity.
Defined.

(** The mutation on the cache client of the repository, whose delete always
    rejects. *)
Lemma invalidation_failure_after_commit_witness :
  let H := RedisService.cacheClient Concrete.stringify_scalar
             Concrete.parse_scalar in
  let w := Concrete.world (Concrete.healthy ∅) (Concrete.store []) in
  let r := createProduct (H := H) Concrete.accept_all Concrete.input w in
  committed_whole Concrete.input (db w) (db r.2) /\
  last (events_since w r.2)
  = Some (EvLog "Fehler beim Erstellen des Produkts").
Proof.
  cbn zeta.
  edestruct (invalidation_failure_after_commit
               (H := RedisService.cacheClient Concrete.stringify_scalar
                       Concrete.parse_scalar)
               Concrete.accept_all Concrete.input
               (Concrete.world (Concrete.healthy ∅) (Concrete.store [])))
    as (_ & Hwhole & Hevs); [reflexivity..|].
  split; [exact Hwhole|]. rewrite Hevs. reflexivity.
Defined.

(** One INSERT inside [transaction]. *)
Lemma transaction_is_all_or_nothing_witness :
  let w := Concrete.world Concrete.cold (Concrete.store []) in
  let r := Database.transaction Sample.insert_one w in
  let begun := (client_query Begin [] (emit EvConnect w)).2 in
  match r.1 with
  | Ok a =>
      (Sample.insert_one begun).1 = Ok a /\
      exists ps vs,
        txn (db (Sample.insert_one begun).2) = Some (ps, vs) /\
        products_tbl (db r.2) = products_tbl (db w) ++ ps /\
        variants_tbl (db r.2) = variants_tbl (db w) ++ vs /\
        txn (db r.2) = None
  | Err _ => committed_nothing (db w) (db r.2)
  end.
Proof.
  apply (transaction_is_all_or_nothing Sample.insert_one
           (Concrete.world Concrete.cold (Concrete.store []))
           eq_refl eq_refl insert_one_stays_in_transaction).
Defined.
